(** * Color_correction: colour-card detection and colour correction

    A shallow embedding of the Python sources
      - [colorbalance.py]        (patch sampling, colour model, fit driver, applier),
      - [Detect_colorChecker.py] (scale / rotation search for the card),
      - [Color_correction.py]    (the per-image pipeline),
    followed by the properties of the design document that were checked
    against them.

    Numbers.  Python floats and numpy [float64] are IEEE binary64 values, so
    they are embedded as Rocq's primitive [float]: every [+], [*], [/], [<]
    below is the very operation the interpreter performs, NaN included.
    Pixels are numpy [uint8], embedded as [Byte.byte].

    Library code that is not part of the repository (libm's [pow], scipy's
    [leastsq], numpy's random generator, OpenCV, imutils, scipy.ndimage) is
    taken as a parameter of the section that needs it. *)

From Stdlib Require Import ZArith Bool Lia String Ascii Floats List.
From Stdlib.Strings Require Import Byte.
Import ListNotations.

Set Warnings "-inexact-float".

(* ================================================================== *)
(** * Python values, exceptions and outcomes *)
(* ================================================================== *)

Module Py.

(** The exceptions the embedded code can raise. *)
Inductive exn : Set :=
| ZeroDivisionError
| TypeError
| ValueError
| IndexError
| OverflowError
| FileNotFoundError
| cv2_error.

(** Outcome of a call: a value, a raised exception, or [OutOfFuel] when the
    fuel handed to a [while] loop of the model did not suffice (no Python
    behaviour corresponds to it). *)
Inductive result (A : Type) : Type :=
| Ok (a : A)
| Raise (e : exn)
| OutOfFuel.

Arguments Ok {A} a.
Arguments Raise {A} e.
Arguments OutOfFuel {A}.

Definition bind {A B : Type} (m : result A) (k : A -> result B) : result B :=
  match m with
  | Ok a => k a
  | Raise e => Raise e
  | OutOfFuel => OutOfFuel
  end.

(** A number as the interpreter holds it: an [int] object or a [float]. *)
Inductive num : Set :=
| Int (z : Z)
| Float (f : float).

(** [x is not 0]: identity with the cached small integer [0]; a float zero
    is a different object. *)
Definition is_not_0 (x : num) : bool :=
  match x with
  | Int 0 => false
  | _ => true
  end.

(** Bounds of the slice [a:b] of a sequence of length [n] (step 1), after
    Python's normalisation of negative and oversized indices. *)
Definition slice_index (x : Z) (n : nat) : nat :=
  if (x <? 0)%Z then Z.to_nat (Z.max (x + Z.of_nat n) 0)
  else Nat.min (Z.to_nat x) n.

(** The indices selected by [a:b] on a sequence of length [n]. *)
Definition slice_range (a b : Z) (n : nat) : list nat :=
  let lo := slice_index a n in
  let hi := slice_index b n in
  seq lo (hi - lo).

(** [l[i]] with Python's negative indexing; [None] stands for IndexError. *)
Definition index {A : Type} (l : list A) (i : Z) : option A :=
  if (i <? 0)%Z then
    (if (i + Z.of_nat (length l) <? 0)%Z then None
     else nth_error l (Z.to_nat (i + Z.of_nat (length l))))
  else nth_error l (Z.to_nat i).

End Py.

Import Py.

Declare Scope py_scope.
Delimit Scope py_scope with py.
Notation "x <- m ;; k" := (Py.bind m (fun x => k))
  (at level 61, m at next level, right associativity) : py_scope.
Notation "' p <- m ;; k" := (Py.bind m (fun p => k))
  (at level 61, p pattern, m at next level, right associativity) : py_scope.

(* ================================================================== *)
(** * numpy and builtin number operations *)
(* ================================================================== *)

Module Np.

Open Scope float_scope.

(** [float(z)] for a Python int: the nearest binary64 value. *)
Definition float_of_Z (z : Z) : float :=
  match z with
  | Z0 => 0
  | _ => SF2Prim (binary_normalize prec emax z 0 false)
  end.

Definition float_of_nat (n : nat) : float := float_of_Z (Z.of_nat n).

(** A [uint8] read as a [float64] ([astype(np.float)], or the upcast numpy
    performs when a [uint8] array meets a [float64] one). *)
Definition float_of_byte (b : byte) : float :=
  float_of_Z (Z.of_N (Byte.to_N b)).

(** [int(x)]: truncation toward zero.  Python raises on NaN and on an
    infinity; every call site below passes a finite quotient, and the model
    returns 0 there. *)
Definition py_int (x : float) : Z :=
  match Prim2SF x with
  | S754_finite s m e =>
      let mag := if (0 <=? e)%Z then (Zpos m * 2 ^ e)%Z
                 else (Zpos m / 2 ^ (- e))%Z in
      if s then (- mag)%Z else mag
  | _ => 0%Z
  end.

(** The integer [round(x)] returns for a finite [float64] [x], as a
    float: the nearest integral value, halves to the even neighbour.  Below
    2^52 in magnitude it is computed by the classical add-and-subtract of
    2^52 in round-to-nearest-even arithmetic; from 2^52 on every binary64
    value is integral.  (On NaN and the infinities, where [round] raises,
    the argument is returned; [builtin_round] below is [round] with its
    exceptions.) *)
Definition round (x : float) : float :=
  if is_nan x then x
  else if abs x <? 0x1p52 then
         (if x <? 0 then (x - 0x1p52) + 0x1p52 else (x + 0x1p52) - 0x1p52)
       else x.

(** The builtin [round(x)] of Python 3 on a float: ValueError on NaN (it
    cannot be converted to an integer), OverflowError on an infinity. *)
Definition builtin_round (x : float) : result float :=
  if is_nan x then Raise ValueError
  else if is_infinity x then Raise OverflowError
  else Ok (round x).

(** numpy's clip kernel: [min (max x lo) hi], a NaN operand [x] propagating. *)
Definition maximum (a b : float) : float :=
  if is_nan a then a else if b <? a then a else b.

Definition minimum (a b : float) : float :=
  if is_nan a then a else if a <? b then a else b.

(** [np.clip(x, lo, None)]. *)
Definition clip_min (x lo : float) : float := maximum x lo.

(** [np.clip(x, lo, hi)]. *)
Definition clip (x lo hi : float) : float := minimum (maximum x lo) hi.

(** [x.astype(np.uint8)] on a [float64]: the fraction is dropped (C
    conversion, toward zero) and the integer is reduced modulo 256.  NaN
    and the infinities, for which C leaves the conversion open, give 0. *)
Definition astype_uint8 (x : float) : byte :=
  match Byte.of_N (Z.to_N (py_int x mod 256)) with
  | Some b => b
  | None => x00
  end.

(** [np.sum] of a one-dimensional array, accumulated left to right.  (numpy
    is free to associate the additions differently; no property below
    depends on the association.) *)
Definition sum (l : list float) : float := fold_left PrimFloat.add l 0.

(** [np.mean]: [sum / count]; an empty array gives [0/0 = nan]. *)
Definition mean (l : list float) : float := sum l / float_of_nat (length l).

(** [np.std]: [sqrt(mean(abs(x - mean(x))**2))]. *)
Definition std (l : list float) : float :=
  let m := mean l in
  PrimFloat.sqrt (mean (map (fun x => (x - m) * (x - m)) l)).

Fixpoint insert_sorted (x : float) (l : list float) : list float :=
  match l with
  | [] => [x]
  | y :: l' => if x <=? y then x :: l else y :: insert_sorted x l'
  end.

Definition sort (l : list float) : list float :=
  fold_right insert_sorted [] l.

(** [np.median] of the flattened array: the mean of the one or two middle
    elements of the sorted data; [nan] for an empty array. *)
Definition median (l : list float) : float :=
  let s := sort l in
  let n := length s in
  if Nat.even n then mean (firstn 2 (skipn (n / 2 - 1) s))
  else mean (firstn 1 (skipn (n / 2) s)).

(** [np.argmax] over floats: index of the first maximum, or of the first
    NaN when there is one.  [argmax_from best idx i l] scans [l], whose head
    has index [i], with the running maximum [best] found at [idx]. *)
Fixpoint argmax_from (best : float) (idx i : nat) (l : list float) : nat :=
  match l with
  | [] => idx
  | x :: l' =>
      if is_nan best then idx
      else if (best <? x) || is_nan x then argmax_from x i (S i) l'
      else argmax_from best idx (S i) l'
  end.

Definition argmax (l : list float) : nat :=
  match l with
  | [] => 0%nat
  | x :: l' => argmax_from x 0 1 l'
  end.

End Np.

(* ================================================================== *)
(** * colorbalance.py *)
(* ================================================================== *)

Module colorbalance.

Open Scope float_scope.

(** Three channel values of one patch or pixel. *)
Definition vec3 : Set := (float * float * float)%type.

(** A 3x3 array, by rows. *)
Definition mat3 : Set := (vec3 * vec3 * vec3)%type.

(** A 3xN array of colors (channels along the first axis), stored as its N
    columns: column [i] is [colors[:, i]]. *)
Definition colors3 : Set := list vec3.

(** One [uint8] pixel with its three channels. *)
Definition pixel : Set := (byte * byte * byte)%type.

(** An HxWx3 [uint8] image: its shape and its buffer in row-major order
    (pixel [(r, c)] at position [r * shape1 + c]), as numpy holds it.  The
    buffer has [shape0 * shape1] pixels. *)
Record image : Set := mk_image {
  shape0 : nat;
  shape1 : nat;
  buf : list pixel
}.

Definition ch (j : nat) (p : pixel) : byte :=
  match p, j with
  | (a, _, _), 0%nat => a
  | (_, b, _), 1%nat => b
  | (_, _, c), _ => c
  end.

Definition ColorCheckerRGB_CameraTrax : colors3 :=
  [ (115, 83, 68); (196, 147, 127); (91, 122, 155); (94, 108, 66);
    (129, 128, 176); (98, 190, 168); (223, 124, 47); (58, 92, 174);
    (194, 82, 96); (93, 60, 103); (162, 190, 62); (229, 158, 41);
    (49, 66, 147); (77, 153, 71); (173, 57, 60); (241, 201, 25);
    (190, 85, 150); (0, 135, 166); (242, 243, 245); (203, 203, 204);
    (162, 163, 162); (120, 120, 120); (84, 84, 84); (50, 50, 52) ].

(** The three parameter arrays of the full-matrix gamma model: [color_alpha]
    (3x3), [color_constant] (3x1) and [color_gamma] (3x1).  Their shapes are
    what the asserts of [_gamma_correction_model] demand. *)
Definition params : Set := (mat3 * vec3 * vec3)%type.

Section Model.

(** [np.power] on [float64] operands: libm's [pow]. *)
Variable np_power : float -> float -> float.

(** Row [a] of [color_alpha] times one column, plus the row's constant:
    one entry of [np.dot(color_alpha, colors) + color_constant]. *)
Definition dot_row (a : vec3) (c : vec3) (b : float) : float :=
  let '(a0, a1, a2) := a in
  let '(c0, c1, c2) := c in
  a0 * c0 + a1 * c1 + a2 * c2 + b.

(** One column through [_gamma_correction_model]: mixing matrix and offset,
    clip at zero, gamma exponent per channel. *)
Definition gamma_correct_column (color_alpha : mat3) (color_constant : vec3)
    (color_gamma : vec3) (c : vec3) : vec3 :=
  let '(r0, r1, r2) := color_alpha in
  let '(b0, b1, b2) := color_constant in
  let '(g0, g1, g2) := color_gamma in
  let s0 := Np.clip_min (dot_row r0 c b0) 0 in
  let s1 := Np.clip_min (dot_row r1 c b1) 0 in
  let s2 := Np.clip_min (dot_row r2 c b2) 0 in
  (255 * np_power (s0 / 255) g0,
   255 * np_power (s1 / 255) g1,
   255 * np_power (s2 / 255) g2).

Definition _gamma_correction_model (colors : colors3) (color_alpha : mat3)
    (color_constant : vec3) (color_gamma : vec3) : colors3 :=
  map (gamma_correct_column color_alpha color_constant color_gamma) colors.

Definition abs3 (v : vec3) : vec3 :=
  let '(a, b, c) := v in (abs a, abs b, abs c).

(** [np.sqrt(np.sum(diff * diff, axis=0))] for [diff = t - c], per column. *)
Definition column_error (t c : vec3) : float :=
  let '(t0, t1, t2) := t in
  let '(c0, c1, c2) := c in
  PrimFloat.sqrt ((t0 - c0) * (t0 - c0) + (t1 - c1) * (t1 - c1)
                  + (t2 - c2) * (t2 - c2)).

Definition color_errors (true_colors corrected_colors : colors3) : list float :=
  map (fun tc => column_error (fst tc) (snd tc))
      (combine true_colors corrected_colors).

(** [_get_color_error] for [algorithm = "gamma_correction"], the algorithm
    the pipeline asks for; [args2] is the 15-vector seen through its three
    reshaped slices. *)
Definition _get_color_error (args2 : params) (true_colors actual_colors : colors3)
    : list float :=
  let '(color_alpha, color_constant, g) := args2 in
  let color_gamma := abs3 g in
  let corrected_colors :=
    _gamma_correction_model actual_colors color_alpha color_constant color_gamma in
  color_errors true_colors corrected_colors.

(** [scipy.optimize.leastsq(func, x0, ...)[0]]. *)
Variable leastsq : (params -> list float) -> params -> params.

Definition eye3 : mat3 := ((1, 0, 0), (0, 1, 0), (0, 0, 1)).
Definition zeros3 : vec3 := (0, 0, 0).
Definition ones3 : vec3 := (1, 1, 1).

(** [get_color_correction_parameters(true_colors, actual_colors,
    "gamma_correction")]. *)
Definition get_color_correction_parameters (true_colors actual_colors : colors3)
    : params :=
  let args_init := (eye3, zeros3, ones3) in
  let '(color_alpha, color_constant, g) :=
    leastsq (fun args2 => _get_color_error args2 true_colors actual_colors)
            args_init in
  (color_alpha, color_constant, abs3 g).

(** The pixels of rows [r0:r1] and columns [c0:c1] of the card, row-major. *)
Definition window (color_card : image) (r0 r1 c0 c1 : Z) : list pixel :=
  flat_map
    (fun i => map (fun k => nth (i * shape1 color_card + k) (buf color_card)
                                (x00, x00, x00))
                  (Py.slice_range c0 c1 (shape1 color_card)))
    (Py.slice_range r0 r1 (shape0 color_card)).

(** The sampling window of grid cell [(row, col)]:
    [color_card[r - sample_size_row : r + sample_size_row,
                c - sample_size_col : c + sample_size_col]]. *)
Definition patch_window (color_card : image) (grid_cols grid_rows : nat)
    (row col : nat) : list pixel :=
  let H := Np.float_of_nat (shape0 color_card) in
  let W := Np.float_of_nat (shape1 color_card) in
  let sample_size_row := Np.py_int (0.2 * H / Np.float_of_nat grid_rows) in
  let sample_size_col := Np.py_int (0.2 * W / Np.float_of_nat grid_cols) in
  let r := Np.py_int ((Np.float_of_nat row + 0.5) * H / Np.float_of_nat grid_rows) in
  let c := Np.py_int ((Np.float_of_nat col + 0.5) * W / Np.float_of_nat grid_cols) in
  window color_card (r - sample_size_row) (r + sample_size_row)
                    (c - sample_size_col) (c + sample_size_col).

(** The statistics of one window: the three channel medians
    ([colors[:, i]]) and the summed channel deviations ([colors_std[i]]). *)
Definition patch_stats (win : list pixel) : vec3 * float :=
  let channel j := map (fun p => Np.float_of_byte (ch j p)) win in
  ((Np.median (channel 0%nat), Np.median (channel 1%nat), Np.median (channel 2%nat)),
   0 + Np.std (channel 0%nat) + Np.std (channel 1%nat) + Np.std (channel 2%nat)).

(** The body of the two [for] loops of [get_colorcard_colors] for one grid
    cell. *)
Definition sample_patch (color_card : image) (grid_cols grid_rows : nat)
    (row col : nat) : vec3 * float :=
  patch_stats (patch_window color_card grid_cols grid_rows row col).

(** [get_colorcard_colors(color_card, grid_size)] with
    [grid_size = [grid_cols, grid_rows]]: [(colors, colors_std)], patch
    [i = row * grid_cols + col].  The divisions by a zero grid size raise. *)
Definition get_colorcard_colors (color_card : image) (grid_size : nat * nat)
    : result (colors3 * list float) :=
  let '(grid_cols, grid_rows) := grid_size in
  if (grid_rows =? 0)%nat then Raise ZeroDivisionError
  else if (grid_cols =? 0)%nat then Raise ZeroDivisionError
  else
    let patches :=
      flat_map (fun row => map (sample_patch color_card grid_cols grid_rows row)
                               (seq 0 grid_cols))
               (seq 0 grid_rows) in
    Ok (map fst patches, map snd patches).

Definition float_pixel (p : pixel) : vec3 :=
  let '(a, b, c) := p in
  (Np.float_of_byte a, Np.float_of_byte b, Np.float_of_byte c).

(** [np.clip(x, 0, 255).astype(np.uint8)] on the three channels. *)
Definition uint8_pixel (v : vec3) : pixel :=
  let '(a, b, c) := v in
  (Np.astype_uint8 (Np.clip a 0 255), Np.astype_uint8 (Np.clip b 0 255),
   Np.astype_uint8 (Np.clip c 0 255)).

(** [correct_color(image, color_alpha, color_constant, color_gamma)] with the
    default [algorithm = "gamma_correction"].  Reshaping to [M*N, 3] and
    back reads the same buffer under another shape. *)
Definition correct_color (img : image) (color_alpha : mat3)
    (color_constant : vec3) (color_gamma : vec3) : image :=
  let colors := map float_pixel (buf img) in
  let corrected_colors :=
    _gamma_correction_model colors color_alpha color_constant color_gamma in
  mk_image (shape0 img) (shape1 img) (map uint8_pixel corrected_colors).

End Model.

End colorbalance.

(* ================================================================== *)
(** * Detect_colorChecker.py *)
(* ================================================================== *)

Module Detect_colorChecker.

Open Scope float_scope.
Open Scope py_scope.

(** What [paralell_search] keeps for an angle:
    [(maxVal, maxLoc, r, scale2)]. *)
Definition found_t : Set := (float * (Z * Z) * float * float)%type.

Section Search.

(** Images are handled only through OpenCV, imutils and scipy.ndimage. *)
Variable gray_img : Type.     (* single-channel image or edge map *)
Variable color_img : Type.    (* three-channel photo *)

(** [img.shape[:2]]: (rows, columns). *)
Variable shape : gray_img -> Z * Z.
(** [ndimage.rotate(img, degree)] on an edge map and on a photo. *)
Variable ndimage_rotate : gray_img -> Py.num -> gray_img.
Variable ndimage_rotate_color : color_img -> Py.num -> color_img.
(** [imutils.resize(img, width = w)]. *)
Variable imutils_resize : gray_img -> Z -> gray_img.
(** [cv2.minMaxLoc(cv2.matchTemplate(resized, card, cv2.TM_CCOEFF_NORMED))],
    of which only [(maxVal, maxLoc)] is used. *)
Variable matchTemplate : gray_img -> gray_img -> float * (Z * Z).
(** [cv2.cvtColor(img, cv2.COLOR_BGR2GRAY)] and [cv2.Canny(gray, lo, hi)]. *)
Variable cvtColor_BGR2GRAY : color_img -> gray_img.
Variable Canny : gray_img -> float -> float -> gray_img.
(** [img[startY:endY, startX:endX, :]]. *)
Variable crop : color_img -> Z -> Z -> Z -> Z -> color_img.

(** [resized.shape[0] < H_card or resized.shape[1] < W_card]. *)
Definition too_small (resized : gray_img) (H_card W_card : Z) : bool :=
  (fst (shape resized) <? H_card)%Z || (snd (shape resized) <? W_card)%Z.

(** [imutils.resize(gray_rot, width = int(gray.shape[1] * scale2))]. *)
Definition resized_at (gray gray_rot : gray_img) (scale2 : float) : gray_img :=
  imutils_resize gray_rot
    (Np.py_int (Np.float_of_Z (snd (shape gray)) * scale2)).

(** [found is None or maxVal > found[0]]. *)
Definition improves (found : option found_t) (maxVal : float) : bool :=
  match found with
  | None => true
  | Some (best, _, _, _) => best <? maxVal
  end.

(** The [for] loop of [paralell_search] from the bookkeeping value [found]
    over the scales still to visit.  Beside [found] it returns the scales
    on which the template was matched, in order (a ghost trace; the Python
    code does not build it).  The ratio [r] is computed before the size
    test, so a resized image without columns raises at the division. *)
Fixpoint scale_loop (gray gray_rot card : gray_img) (H_card W_card : Z)
    (found : option found_t) (search_scale : list float)
    : result (option found_t * list float) :=
  match search_scale with
  | [] => Ok (found, [])
  | scale2 :: rest =>
      let resized := resized_at gray gray_rot scale2 in
      if (snd (shape resized) =? 0)%Z then Raise ZeroDivisionError
      else
        let r := Np.float_of_Z (snd (shape gray_rot))
                 / Np.float_of_Z (snd (shape resized)) in
        if too_small resized H_card W_card then Ok (found, [])     (* break *)
        else
          let '(maxVal, maxLoc) := matchTemplate resized card in
          let found' := if improves found maxVal
                        then Some (maxVal, maxLoc, r, scale2) else found in
          ' (res, trace) <-
            scale_loop gray gray_rot card H_card W_card found' rest ;;
          Ok (res, scale2 :: trace)
  end.

Definition rotated (gray : gray_img) (degree : Py.num) : gray_img :=
  if Py.is_not_0 degree then ndimage_rotate gray degree else gray.

Definition paralell_search_trace (search_scale : list float) (degree : Py.num)
    (gray : gray_img) (H_card W_card : Z) (card : gray_img)
    : result (option found_t * list float) :=
  scale_loop gray (rotated gray degree) card H_card W_card None search_scale.

(** [paralell_search(search_scale, degree, gray, H_card, W_card, card)];
    [None] is Python's [None]. *)
Definition paralell_search (search_scale : list float) (degree : Py.num)
    (gray : gray_img) (H_card W_card : Z) (card : gray_img)
    : result (option found_t) :=
  ' (found, _) <-
    paralell_search_trace search_scale degree gray H_card W_card card ;;
  Ok found.

(** The joblib pool: one call per angle, results in the order of
    [search_degree]; an exception in a call is raised again by the pool. *)
Fixpoint Parallel {A B : Type} (f : A -> result B) (l : list A)
    : result (list B) :=
  match l with
  | [] => Ok []
  | a :: rest =>
      b <- f a ;;
      bs <- Parallel f rest ;;
      Ok (b :: bs)
  end.

(** [zip] over the unpacked [results]: every result is iterated as a
    4-tuple; [None] is not iterable. *)
Fixpoint unzip_results (results : list (option found_t)) : result (list found_t) :=
  match results with
  | [] => Ok []
  | None :: _ => Raise TypeError
  | Some f :: rest =>
      fs <- unzip_results rest ;;
      Ok (f :: fs)
  end.

Definition maxVal_of (f : found_t) : float := let '(v, _, _, _) := f in v.

(** [detect_card(img, card, search_scale, search_degree, num_cores)]:
    [(output_img, maxVal, SCALE)], whatever [num_cores] is. *)
Definition detect_card (img : color_img) (card : gray_img)
    (search_scale : list float) (search_degree : list Py.num)
    : result (color_img * float * float) :=
  let '(H_card, W_card) := shape card in
  let gray := cvtColor_BGR2GRAY img in
  let edged := Canny gray 40 50 in
  results <-
    Parallel (fun degree =>
                paralell_search search_scale degree edged H_card W_card card)
             search_degree ;;
  fs <- unzip_results results ;;
  match fs with
  | [] => Raise ValueError       (* unpacking zip() of no result *)
  | f0 :: _ =>
      let ind := Np.argmax (map maxVal_of fs) in
      let '(maxVal, maxLoc, r, SCALE) := nth ind fs f0 in
      let deg := nth ind search_degree (Py.Int 0) in
      let px (z : Z) : result Z :=
        v <- Np.builtin_round (Np.float_of_Z z * r) ;; Ok (Np.py_int v) in
      startX <- px (fst maxLoc) ;;
      startY <- px (snd maxLoc) ;;
      endX <- px (fst maxLoc + W_card)%Z ;;
      endY <- px (snd maxLoc + H_card)%Z ;;
      let output_img :=
        if Py.is_not_0 deg then ndimage_rotate_color img deg else img in
      Ok (crop output_img startY endY startX endX, maxVal, SCALE)
  end.

End Search.

End Detect_colorChecker.

(* ================================================================== *)
(** * Color_correction.py *)
(* ================================================================== *)

Module Color_correction.

Import colorbalance.
Open Scope float_scope.
Open Scope py_scope.

(** What [cv2.cvtColor] with [COLOR_BGR2RGB] or [COLOR_RGB2BGR] returns
    for an image with pixels: the first and the third channel of every
    pixel change places. *)
Definition cvtColor_swap (img : image) : image :=
  mk_image (shape0 img) (shape1 img)
           (map (fun p : pixel => let '(a, b, c) := p in (c, b, a)) (buf img)).

(** [cv2.cvtColor(img, COLOR_BGR2RGB)] and [cv2.cvtColor(img,
    COLOR_RGB2BGR)]: OpenCV refuses an image without pixels. *)
Definition cvtColor (img : image) : result image :=
  if (shape0 img =? 0)%nat || (shape1 img =? 0)%nat then Raise cv2_error
  else Ok (cvtColor_swap img).

Fixpoint dropwhile (f : ascii -> bool) (l : list ascii) : list ascii :=
  match l with
  | c :: rest => if f c then dropwhile f rest else l
  | [] => []
  end.

(** [os.path.dirname(p)] ([posixpath]): [p] up to its last slash, the
    trailing slashes of that part removed unless it holds nothing else. *)
Definition os_path_dirname (p : string) : string :=
  let is_slash c := Ascii.eqb c "/"%char in
  let head_rev :=
    dropwhile (fun c => negb (is_slash c)) (rev (list_ascii_of_string p)) in
  if forallb is_slash head_rev then string_of_list_ascii (rev head_rev)
  else string_of_list_ascii (rev (dropwhile is_slash head_rev)).

(** [np.sum(actual_colors[:, i])]; [None] stands for the IndexError of a
    column that does not exist. *)
Definition column_sum (actual_colors : colors3) (i : Z) : option float :=
  match Py.index actual_colors i with
  | Some (a, b, c) => Some (Np.sum [a; b; c])
  | None => None
  end.

(** [np.sum(actual_colors[:, i]) > np.sum(actual_colors[:, j])]. *)
Definition sum_gt (actual_colors : colors3) (i j : Z) : result bool :=
  match column_sum actual_colors i, column_sum actual_colors j with
  | Some x, Some y => Ok (y <? x)
  | _, _ => Raise IndexError
  end.

(** [np.sum(actual_colors[:, i]) < np.sum(actual_colors[:, j])]. *)
Definition sum_lt (actual_colors : colors3) (i j : Z) : result bool :=
  match column_sum actual_colors i, column_sum actual_colors j with
  | Some x, Some y => Ok (x <? y)
  | _, _ => Raise IndexError
  end.

(** The three comparisons of lines 28, 31 and 34, in that order. *)
Definition votes (actual_colors : colors3) : result (bool * bool * bool) :=
  v1 <- sum_gt actual_colors 8 (-9) ;;
  v2 <- sum_gt actual_colors 5 (-6) ;;
  v3 <- sum_lt actual_colors 0 (-1) ;;
  Ok (v1, v2, v3).

Definition count_votes (v : bool * bool * bool) : nat :=
  let '(v1, v2, v3) := v in
  ((if v1 then 1 else 0) + (if v2 then 1 else 0) + (if v3 then 1 else 0))%nat.

(** Lines 26 to 40: [cnt_color] is counted and, from two votes on, both
    sequences are reversed and [card_rotated] is set.  Returns
    [(actual_colors, actual_colors_std, card_rotated)]. *)
Definition resolve_orientation (actual_colors : colors3)
    (actual_colors_std : list float) : result (colors3 * list float * bool) :=
  v <- votes actual_colors ;;
  let cnt_color := count_votes v in
  if (2 <=? cnt_color)%nat
  then Ok (rev actual_colors, rev actual_colors_std, true)
  else Ok (actual_colors, actual_colors_std, false).

Definition add3 (x y : vec3) : vec3 :=
  let '(x0, x1, x2) := x in
  let '(y0, y1, y2) := y in
  (x0 + y0, x1 + y1, x2 + y2).

(** [actual_colors + noise] for two 3x24 arrays. *)
Definition add_colors (actual_colors noise : colors3) : colors3 :=
  map (fun cn => add3 (fst cn) (snd cn)) (combine actual_colors noise).

(** What the [while] loop leaves behind: the number of passes, the last
    fitted parameters and errors, and how often the random generator was
    called. *)
Record fit_state : Set := mk_fit {
  iter : nat;
  fit_params : params;
  errors : list float;
  draws : nat
}.

(** What a call does: the returned triple
    [(card_damaged, card_rotated, correction_error)], the file it wrote
    (name and pixels) if any, and two counters of the calls made to the
    fit and to the random generator. *)
Record run : Set := mk_run {
  card_damaged : bool;
  card_rotated : bool;
  correction_error : float;
  written : option (string * image);
  fit_calls : nat;
  rand_calls : nat
}.

Section Pipeline.

Variable np_power : float -> float -> float.
Variable leastsq : (params -> list float) -> params -> params.
(** The file system and the image writer: [os.path.exists] and
    [os.makedirs] on a path that is not empty, and [cv2.imwrite], whose
    returned flag the code drops.  The last two may raise. *)
Variable os_path_exists : string -> bool.
Variable os_makedirs : string -> result unit.
Variable cv2_imwrite : string -> image -> result unit.
(** [np_random_rand k]: the array the [k]-th call of [np.random.rand(3, 24)]
    in this run returns (3x24, entries in [0, 1)). *)
Variable np_random_rand : nat -> colors3.

Let true_colors : colors3 := ColorCheckerRGB_CameraTrax.

(** [Acc > 0.4 and np.mean(errors) > 40 and iter < 6]. *)
Definition retry (Acc : float) (errs : list float) (it : nat) : bool :=
  (0.4 <? Acc) && (40 <? Np.mean errs) && (it <? 6)%nat.

(** The [while Check:] loop of lines 48 to 61, entered with [Check = True]:
    [it] passes done so far, [actual_colors2] to fit next, [k] random
    arrays drawn so far.  One unit of fuel per pass. *)
Fixpoint fit_loop (fuel : nat) (Acc : float) (actual_colors : colors3)
    (it : nat) (actual_colors2 : colors3) (k : nat) : result fit_state :=
  match fuel with
  | O => OutOfFuel
  | S fuel' =>
      let it := S it in
      let '(color_alpha, color_constant, color_gamma) :=
        get_color_correction_parameters np_power leastsq true_colors actual_colors2 in
      let corrected_colors :=
        _gamma_correction_model np_power actual_colors2
                                color_alpha color_constant color_gamma in
      let errs := color_errors true_colors corrected_colors in
      if retry Acc errs it then
        fit_loop fuel' Acc actual_colors it
                 (add_colors actual_colors (np_random_rand k)) (S k)
      else Ok (mk_fit it (color_alpha, color_constant, color_gamma) errs k)
  end.

(** The value of [round((np.mean(errors)/255)*10000)/float(100)] when
    [round] returns. *)
Definition error_percent (errs : list float) : float :=
  Np.round (Np.mean errs / 255 * 10000) / 100.

(** Line 63: [round] raises on a mean error that is NaN or infinite. *)
Definition rounded_percent (errs : list float) : result float :=
  v <- Np.builtin_round (Np.mean errs / 255 * 10000) ;;
  Ok (v / 100).

(** [os.path.exists(d)]: nothing exists under the empty path. *)
Definition path_exists (d : string) : bool :=
  match d with
  | EmptyString => false
  | _ => os_path_exists d
  end.

(** [os.makedirs(d)]: the empty path cannot be created. *)
Definition makedirs (d : string) : result unit :=
  match d with
  | EmptyString => Raise FileNotFoundError
  | _ => os_makedirs d
  end.

(** Lines 68 to 71: back to BGR order, the directory of the file made if
    it is missing, and the image written.  Returns what was handed to
    [cv2.imwrite]. *)
Definition write_corrected (ImageRGBCorrected : image)
    (study_file_name : string) : result (string * image) :=
  ImageCorrected <- cvtColor ImageRGBCorrected ;;
  let d := os_path_dirname study_file_name in
  _ <- (if path_exists d then Ok tt else makedirs d) ;;
  _ <- cv2_imwrite study_file_name ImageCorrected ;;
  Ok (study_file_name, ImageCorrected).

(** Lines 18 to 73 of [Color_correct_and_write], from the sampled colors
    on.  The reference table is 3x24: the first fit raises ValueError (the
    shapes do not broadcast) on samples of another length. *)
Definition correct_samples (fuel : nat) (actual_colors : colors3)
    (actual_colors_std : list float) (ImageRGB : image)
    (study_file_name : string) (Acc : float) : result run :=
  if existsb (fun s => 90 <? s) actual_colors_std
  then Ok (mk_run true false 0 None 0 0)
  else
    ' (actual_colors, actual_colors_std, rotated) <-
        resolve_orientation actual_colors actual_colors_std ;;
    if negb (length actual_colors =? 24)%nat then Raise ValueError
    else
      st <- fit_loop fuel Acc actual_colors 0 actual_colors 0 ;;
      let '(color_alpha, color_constant, color_gamma) := fit_params st in
      err <- rounded_percent (errors st) ;;
      out <- (if err <? 50
              then
                w <- write_corrected
                       (correct_color np_power ImageRGB color_alpha
                                      color_constant color_gamma)
                       study_file_name ;;
                Ok (Some w)
              else Ok None) ;;
      Ok (mk_run false rotated err out (iter st) (draws st)).

(** [Color_correct_and_write(card, image, study_file_name, Acc)]. *)
Definition Color_correct_and_write (fuel : nat) (card img : image)
    (study_file_name : string) (Acc : float) : result run :=
  CardRGB <- cvtColor card ;;
  ImageRGB <- cvtColor img ;;
  ' (actual_colors, actual_colors_std) <-
      get_colorcard_colors CardRGB (6, 4)%nat ;;
  correct_samples fuel actual_colors actual_colors_std ImageRGB
                  study_file_name Acc.

End Pipeline.

End Color_correction.

(* ================================================================== *)
(** * run_color_correction.py *)
(* ================================================================== *)

Module run_color_correction.

Import colorbalance.
Open Scope float_scope.
Open Scope py_scope.

(** [img[r0:r1, c0:c1, :]]: the rows and columns the two slices select. *)
Definition slice_image (img : image) (r0 r1 c0 c1 : Z) : image :=
  mk_image (length (Py.slice_range r0 r1 (shape0 img)))
           (length (Py.slice_range c0 c1 (shape1 img)))
           (window img r0 r1 c0 c1).

(** [crop_image(image_orig, height_card, width_card, x_cord, y_cord)] for
    integer coordinates (a float coordinate makes the slice raise).  The
    message printed when the crop is given up is not modelled. *)
Definition crop_image (image_orig : image) (height_card width_card : Z)
    (x_cord y_cord : Z) : image :=
  let x_start := Z.max 0 (x_cord - Np.py_int (Np.float_of_Z width_card * 1.25)) in
  let y_start := Z.max 0 (y_cord - Np.py_int (Np.float_of_Z height_card * 1.25)) in
  let x_end := Z.min (Z.of_nat (shape1 image_orig) - 1)
                     (x_cord + Np.py_int (Np.float_of_Z width_card * 1.25)) in
  let y_end := Z.min (Z.of_nat (shape0 image_orig) - 1)
                     (y_cord + Np.py_int (Np.float_of_Z height_card * 1.25)) in
  let image_cropped := slice_image image_orig y_start y_end x_start x_end in
  if (Z.of_nat (shape0 image_cropped) <? height_card)%Z
     || (Z.of_nat (shape1 image_cropped) <? width_card)%Z
  then image_orig
  else image_cropped.

(** [np.rot90(m)]: a quarter turn counterclockwise; the result has shape
    [(W, H, 3)] and its pixel [(i, j)] is pixel [(j, W - 1 - i)] of [m]. *)
Definition rot90 (m : image) : image :=
  let H := shape0 m in
  let W := shape1 m in
  mk_image W H
    (flat_map (fun i => map (fun j => nth (j * W + (W - 1 - i)) (buf m)
                                          (x00, x00, x00))
                            (seq 0 H))
              (seq 0 W)).

(** [handle_verical_horizontal_cards(image_resized, vertical)] for a
    boolean [vertical].  Both tests read the height and the width measured
    before any turn. *)
Definition handle_verical_horizontal_cards (image_resized : image)
    (vertical : bool) : image :=
  let height_image := shape0 image_resized in
  let width_image := shape1 image_resized in
  let image_resized :=
    if (width_image <? height_image)%nat && negb vertical
    then rot90 image_resized else image_resized in
  let image_resized :=
    if (height_image <? width_image)%nat && vertical
    then rot90 image_resized else image_resized in
  image_resized.

(** A Python string as the list of its characters (code points below 256). *)
Definition str : Set := list ascii.

(** [s.split(sep)] for a one-character separator: one piece more than
    there are separators. *)
Fixpoint split (sep : ascii) (s : str) : list str :=
  match s with
  | [] => [[]]
  | c :: rest =>
      if Ascii.eqb c sep then [] :: split sep rest
      else match split sep rest with
           | piece :: pieces => (c :: piece) :: pieces
           | [] => [[c]]
           end
  end.

(** [c.isspace()] for a character below 256: tab to carriage return, the
    four separators 28 to 31, space, next line (133) and no-break space
    (160). *)
Definition isspace (c : ascii) : bool :=
  let n := nat_of_ascii c in
  ((9 <=? n) && (n <=? 13) || (28 <=? n) && (n <=? 32)
   || (n =? 133) || (n =? 160))%nat.

Fixpoint lstrip (s : str) : str :=
  match s with
  | c :: rest => if isspace c then lstrip rest else s
  | [] => []
  end.

(** [s.strip()]. *)
Definition strip (s : str) : str := rev (lstrip (rev (lstrip s))).

(** The last element of a non-empty list replaced by nothing if it is
    [c]. *)
Definition drop_last_if (c : ascii) (s : str) : str :=
  match rev s with
  | x :: rest => if Ascii.eqb x c then rev rest else s
  | [] => s
  end.

(** [check_name_modification(names)] for [names] the list of the
    characters of the option.  An opening bracket in front and a closing
    one at the end are blanked, the rest is joined, split at the commas and
    stripped; exactly two pieces are expected.  (When the only character
    is an opening bracket, the element left is the empty string, which is
    not a closing bracket.) *)
Definition check_name_modification (names : str) : result (str * str) :=
  match names with
  | [] => Raise IndexError                         (* names[0] *)
  | first :: rest =>
      let names1 := if Ascii.eqb first "["%char then rest else names in
      let names2 := drop_last_if "]"%char names1 in
      let names_corrected := map strip (split ","%char names2) in
      match names_corrected with
      | [old; new] => Ok (old, new)
      | _ => Raise ValueError
      end
  end.

(** What docopt hands to [parse_options]: the flag [-v] and the optional
    arguments, absent ones being [None]. *)
Record opts : Set := mk_opts {
  opt_v : bool;
  opt_s : option string;
  opt_d : option string;
  opt_f : option string;
  opt_n : option string;
  opt_t : option string;
  opt_l : option string
}.

(** The dictionary [Options]; the empty strings that stand for missing
    coordinates are [None] here. *)
Record Options : Set := mk_Options {
  vertical : bool;
  scale_lower : Py.num;
  scale_upper : Py.num;
  scale_num : Py.num;
  degree_lower : Py.num;
  degree_upper : Py.num;
  degree_num : Py.num;
  fast : bool;
  cord_x : option Py.num;
  cord_y : option Py.num;
  num_cores : Z;
  modify_name : bool;
  old_name : str;
  new_name : str;
  write_log : bool;
  log_folder : string
}.

(** [x > 0] for a Python number. *)
Definition gt_0 (x : Py.num) : bool :=
  match x with
  | Py.Int z => (0 <? z)%Z
  | Py.Float f => 0 <? f
  end.

Section Options.

(** [eval] on the text of an option, where it yields a list of numbers,
    and [int] on a text; both may raise. *)
Variable eval : string -> result (list Py.num).
Variable int : string -> result Z.
(** [multiprocessing.cpu_count()]. *)
Variable NUM_CORES : Z.

(** [string_array_check(str_array, length)]. *)
Definition string_array_check (str_array : string) (length : nat)
    : result (list Py.num) :=
  array <- eval str_array ;;
  if (List.length array =? length)%nat then Ok array else Raise ValueError.

Definition default_Options : Options :=
  mk_Options false (Py.Int 1) (Py.Int 1) (Py.Int 1)
             (Py.Float (-2.5)) (Py.Float 2.5) (Py.Int 11)
             false None None NUM_CORES false [] [] false EmptyString.

(** The [-s] block of [parse_options]. *)
Definition parse_scale (o : opts) (O : Options) : result Options :=
  match opt_s o with
  | None => Ok O
  | Some text =>
      Scale <- string_array_check text 3 ;;
      match Scale with
      | [s0; s1; s2] =>
          if gt_0 s0 && gt_0 s1 && gt_0 s2
          then Ok (mk_Options (vertical O) s0 s1 s2
                     (degree_lower O) (degree_upper O) (degree_num O)
                     (fast O) (cord_x O) (cord_y O) (num_cores O)
                     (modify_name O) (old_name O) (new_name O)
                     (write_log O) (log_folder O))
          else Raise ValueError
      | _ => Raise IndexError
      end
  end.

(** The [-d] block: the bounds are stored before the count is tested. *)
Definition parse_degree (o : opts) (O : Options) : result Options :=
  match opt_d o with
  | None => Ok O
  | Some text =>
      Degree <- string_array_check text 3 ;;
      match Degree with
      | [d0; d1; d2] =>
          if gt_0 d2
          then Ok (mk_Options (vertical O)
                     (scale_lower O) (scale_upper O) (scale_num O)
                     d0 d1 d2
                     (fast O) (cord_x O) (cord_y O) (num_cores O)
                     (modify_name O) (old_name O) (new_name O)
                     (write_log O) (log_folder O))
          else Raise ValueError
      | _ => Raise IndexError
      end
  end.

(** The [-f] block. *)
Definition parse_fast (o : opts) (O : Options) : result Options :=
  match opt_f o with
  | None => Ok O
  | Some text =>
      Cord <- string_array_check text 2 ;;
      match Cord with
      | [x; y] =>
          Ok (mk_Options (vertical O)
                (scale_lower O) (scale_upper O) (scale_num O)
                (degree_lower O) (degree_upper O) (degree_num O)
                true (Some x) (Some y) (num_cores O)
                (modify_name O) (old_name O) (new_name O)
                (write_log O) (log_folder O))
      | _ => Raise IndexError
      end
  end.

(** The [-n] block. *)
Definition parse_names (o : opts) (O : Options) : result Options :=
  match opt_n o with
  | None => Ok O
  | Some text =>
      ' (old, new) <- check_name_modification (list_ascii_of_string text) ;;
      Ok (mk_Options (vertical O)
            (scale_lower O) (scale_upper O) (scale_num O)
            (degree_lower O) (degree_upper O) (degree_num O)
            (fast O) (cord_x O) (cord_y O) (num_cores O)
            true old new (write_log O) (log_folder O))
  end.

(** The [-t] block. *)
Definition parse_cores (o : opts) (O : Options) : result Options :=
  match opt_t o with
  | None => Ok O
  | Some text =>
      n <- int text ;;
      Ok (mk_Options (vertical O)
            (scale_lower O) (scale_upper O) (scale_num O)
            (degree_lower O) (degree_upper O) (degree_num O)
            (fast O) (cord_x O) (cord_y O) n
            (modify_name O) (old_name O) (new_name O)
            (write_log O) (log_folder O))
  end.

(** The [-l] block. *)
Definition parse_log (o : opts) (O : Options) : Options :=
  match opt_l o with
  | None => O
  | Some folder =>
      mk_Options (vertical O)
        (scale_lower O) (scale_upper O) (scale_num O)
        (degree_lower O) (degree_upper O) (degree_num O)
        (fast O) (cord_x O) (cord_y O) (num_cores O)
        (modify_name O) (old_name O) (new_name O) true folder
  end.

(** [parse_options(opts)]: the defaults, then the blocks in the order of
    the source. *)
Definition parse_options (o : opts) : result Options :=
  let O := default_Options in
  let O := if opt_v o
           then mk_Options true
                  (scale_lower O) (scale_upper O) (scale_num O)
                  (degree_lower O) (degree_upper O) (degree_num O)
                  (fast O) (cord_x O) (cord_y O) (num_cores O)
                  (modify_name O) (old_name O) (new_name O)
                  (write_log O) (log_folder O)
           else O in
  O <- parse_scale o O ;;
  O <- parse_degree o O ;;
  O <- parse_fast o O ;;
  O <- parse_names o O ;;
  O <- parse_cores o O ;;
  Ok (parse_log o O).

End Options.

End run_color_correction.

(* ================================================================== *)
(** * Facts about binary64 comparison and short lists *)
(* ================================================================== *)

Module Facts.

Open Scope float_scope.

Lemma SFcompare_Lt_Gt (a b : spec_float) :
  SFcompare a b = Some Lt -> SFcompare b a = Some Gt.
Proof.
  destruct a as [sa| sa| |sa ma ea], b as [sb| sb| |sb mb eb]; simpl;
    try discriminate;
    try (destruct sa; discriminate || reflexivity);
    try (destruct sb; discriminate || reflexivity);
    try (destruct sa, sb; discriminate || reflexivity).
  change (PosDef.Pos.compare_cont Eq ma mb) with (Pos.compare ma mb).
  change (PosDef.Pos.compare_cont Eq mb ma) with (Pos.compare mb ma).
  rewrite (Z.compare_antisym ea eb), (Pos.compare_antisym ma mb).
  destruct sa, sb; try discriminate; try reflexivity;
    destruct (ea ?= eb)%Z; simpl; try discriminate; try reflexivity;
    destruct (ma ?= mb)%positive; simpl; try discriminate; reflexivity.
Qed.

(** [<] on binary64 is asymmetric, NaN and signed zeros included. *)
Lemma ltb_asym (x y : float) : (x <? y) = true -> (y <? x) = false.
Proof.
  rewrite !ltb_spec. unfold SFltb. intros H.
  destruct (SFcompare (Prim2SF x) (Prim2SF y)) as [[]|] eqn:E; try discriminate.
  now rewrite (SFcompare_Lt_Gt _ _ E).
Qed.

Lemma length24 {A : Type} (l : list A) :
  length l = 24%nat ->
  exists x0 x1 x2 x3 x4 x5 x6 x7 x8 x9 x10 x11 x12 x13 x14 x15 x16 x17 x18
         x19 x20 x21 x22 x23,
    l = [x0; x1; x2; x3; x4; x5; x6; x7; x8; x9; x10; x11; x12; x13; x14;
         x15; x16; x17; x18; x19; x20; x21; x22; x23].
Proof.
  intros H.
  do 24 (destruct l as [|? l]; [discriminate H|]).
  destruct l; [|discriminate H].
  repeat eexists.
Qed.

Lemma ltb_leb (x y : float) : (x <? y) = true -> (x <=? y) = true.
Proof.
  rewrite ltb_spec, leb_spec. unfold SFltb, SFleb.
  destruct (SFcompare (Prim2SF x) (Prim2SF y)) as [[]|]; congruence.
Qed.

Lemma digits2_pos_bound (m : positive) :
  (Zpos m < 2 ^ Zpos (SpecFloat.digits2_pos m))%Z.
Proof.
  induction m as [m IH|m IH|]; simpl SpecFloat.digits2_pos.
  - rewrite Pos2Z.inj_succ, Z.pow_succ_r by lia. lia.
  - rewrite Pos2Z.inj_succ, Z.pow_succ_r by lia. lia.
  - reflexivity.
Qed.

(** The mantissa of a binary64 value has at most 53 bits. *)
Lemma valid_mantissa_bound (s : bool) (m : positive) (e : Z) :
  valid_binary (S754_finite s m e) = true -> (Zpos m < 2 ^ 53)%Z.
Proof.
  unfold SpecFloat.valid_binary, bounded, canonical_mantissa, fexp.
  intros H. apply andb_prop in H. destruct H as [H _].
  apply Z.eqb_eq in H.
  pose proof (digits2_pos_bound m) as Hd.
  assert (Hle : (Zpos (SpecFloat.digits2_pos m) <= 53)%Z).
  { change prec with 53%Z in H. lia. }
  eapply Z.lt_le_trans; [exact Hd|].
  apply Z.pow_le_mono_r; lia.
Qed.

(** Truncating a float between 0 and 255 gives an integer between 0 and
    255. *)
Lemma py_int_range (v : float) :
  (0 <=? v) = true -> (v <=? 255) = true -> (0 <= Np.py_int v <= 255)%Z.
Proof.
  rewrite !leb_spec. unfold Np.py_int.
  pose proof (Prim2SF_valid v) as Hv.
  set (z := Prim2SF 0). vm_compute in z. subst z.
  set (c := Prim2SF 255). vm_compute in c. subst c.
  destruct (Prim2SF v) as [s|s| |s m e]; try lia.
  unfold SFleb, SFcompare.
  destruct s; [discriminate|]. intros _ H.
  pose proof (valid_mantissa_bound _ _ _ Hv) as Hm.
  destruct (e ?= -45)%Z eqn:E.
  - apply Z.compare_eq in E. subst e.
    change (0 <=? -45)%Z with false. cbv iota. change (- -45)%Z with 45%Z.
    assert (Hle : (Zpos m <= 8972014882652160)%Z).
    { revert H. generalize 8972014882652160%positive. intros M H.
      change (PosDef.Pos.compare_cont Eq m M) with (Pos.compare m M) in H.
      destruct (Pos.compare m M) eqn:C; try discriminate.
      - apply Pos.compare_eq in C. subst. lia.
      - assert (Hlt : (m < M)%positive) by exact C. lia. }
    clear H.
    assert (Hp : (2 ^ 45 = 35184372088832)%Z) by reflexivity.
    rewrite Hp.
    split; [apply Z.div_pos; lia|].
    apply Z.div_le_upper_bound; lia.
  - assert (He : (e < -45)%Z) by exact E.
    destruct (0 <=? e)%Z eqn:E0; [apply Z.leb_le in E0; lia|].
    assert (Hp : (2 ^ 46 <= 2 ^ (- e))%Z) by (apply Z.pow_le_mono_r; lia).
    assert (H46 : (2 ^ 46 = 70368744177664)%Z) by reflexivity.
    assert (H53 : (2 ^ 53 = 9007199254740992)%Z) by reflexivity.
    rewrite H46 in Hp. rewrite H53 in Hm.
    split; [apply Z.div_pos; lia|].
    apply Z.div_le_upper_bound; [lia|]. nia.
  - discriminate.
Qed.

(** On a float between 0 and 255 the conversion to [uint8] does not wrap:
    the pixel is the float with its fraction dropped. *)
Lemma astype_uint8_no_wrap (v : float) :
  (0 <=? v) = true -> (v <=? 255) = true ->
  Z.of_N (Byte.to_N (Np.astype_uint8 v)) = Np.py_int v.
Proof.
  intros H0 H1. pose proof (py_int_range v H0 H1) as Hr.
  unfold Np.astype_uint8. rewrite Z.mod_small by lia.
  destruct (Byte.of_N (Z.to_N (Np.py_int v))) as [b|] eqn:E.
  - apply Byte.to_of_N in E. rewrite E. lia.
  - apply Byte.of_N_None_iff in E. lia.
Qed.

Lemma clip_0_255_nan (x : float) : is_nan x = true -> Np.clip x 0 255 = x.
Proof.
  intros H. unfold Np.clip, Np.minimum, Np.maximum. now rewrite H, H.
Qed.

Lemma clip_0_255_bounds (x : float) :
  is_nan x = false ->
  (0 <=? Np.clip x 0 255) = true /\ (Np.clip x 0 255 <=? 255) = true.
Proof.
  intros H. unfold Np.clip, Np.minimum, Np.maximum. rewrite H.
  destruct (0 <? x) eqn:E1.
  - rewrite H. destruct (x <? 255) eqn:E2.
    + split; apply ltb_leb; assumption.
    + split; reflexivity.
  - split; reflexivity.
Qed.

Ltac by_byte b := destruct b; vm_compute; reflexivity.

Lemma mul_1_byte (b : byte) : 1 * Np.float_of_byte b = Np.float_of_byte b.
Proof. by_byte b. Qed.

Lemma mul_0_byte (b : byte) : 0 * Np.float_of_byte b = 0.
Proof. by_byte b. Qed.

Lemma add_0_r_byte (b : byte) : Np.float_of_byte b + 0 = Np.float_of_byte b.
Proof. by_byte b. Qed.

Lemma add_0_l_byte (b : byte) : 0 + Np.float_of_byte b = Np.float_of_byte b.
Proof. by_byte b. Qed.

(** Scaling a [uint8] value down by 255 and up again, clipping and
    converting back is exact for each of the 256 values. *)
Lemma channel_roundtrip (b : byte) :
  Np.astype_uint8
    (Np.clip (255 * (Np.clip_min (Np.float_of_byte b) 0 / 255)) 0 255) = b.
Proof. by_byte b. Qed.

End Facts.

(* ================================================================== *)
(** * The order and the signs of binary64 values *)
(* ================================================================== *)

Module FloatOrder.

Open Scope float_scope.

(** The place of a non-NaN value in the order of binary64: class, then
    exponent, then mantissa, negated for negative values. *)
Definition rank (x : spec_float) : option (Z * Z * Z) :=
  match x with
  | S754_nan => None
  | S754_infinity true => Some ((-2)%Z, 0%Z, 0%Z)
  | S754_finite true m e => Some ((-1)%Z, (- e)%Z, Zneg m)
  | S754_zero _ => Some (0%Z, 0%Z, 0%Z)
  | S754_finite false m e => Some (1%Z, e, Zpos m)
  | S754_infinity false => Some (2%Z, 0%Z, 0%Z)
  end.

Definition lex (a b : Z * Z * Z) : comparison :=
  let '(a1, a2, a3) := a in
  let '(b1, b2, b3) := b in
  match (a1 ?= b1)%Z with
  | Eq => match (a2 ?= b2)%Z with Eq => (a3 ?= b3)%Z | c => c end
  | c => c
  end.

Lemma SFcompare_rank (a b : spec_float) :
  SFcompare a b =
  match rank a, rank b with
  | Some ra, Some rb => Some (lex ra rb)
  | _, _ => None
  end.
Proof.
  destruct a as [sa|sa| |sa ma ea], b as [sb|sb| |sb mb eb];
    try destruct sa; try destruct sb; try reflexivity.
  all: unfold SFcompare, rank, lex.
  all: change (PosDef.Pos.compare_cont Eq ma mb) with (Pos.compare ma mb).
  all: rewrite ?Z.compare_opp, ?(Z.compare_antisym ea eb).
  all: change (Zneg ma ?= Zneg mb)%Z with (CompOpp (Pos.compare ma mb)).
  all: change (Zpos ma ?= Zpos mb)%Z with (Pos.compare ma mb).
  all: destruct (ea ?= eb)%Z; reflexivity.
Qed.

Lemma lex_Lt (a b : Z * Z * Z) :
  lex a b = Lt <->
  (fst (fst a) < fst (fst b)
   \/ (fst (fst a) = fst (fst b)
       /\ (snd (fst a) < snd (fst b)
           \/ (snd (fst a) = snd (fst b) /\ snd a < snd b))))%Z.
Proof.
  destruct a as [[a1 a2] a3], b as [[b1 b2] b3]. simpl.
  destruct (Z.compare_spec a1 b1), (Z.compare_spec a2 b2).
  all: rewrite ?Z.compare_lt_iff; split; intros;
    try reflexivity; try lia; try discriminate.
Qed.

Lemma SFltb_rank (a b : spec_float) :
  SFltb a b = true <->
  exists ra rb, rank a = Some ra /\ rank b = Some rb /\ lex ra rb = Lt.
Proof.
  unfold SFltb. rewrite SFcompare_rank.
  destruct (rank a) as [ra|], (rank b) as [rb|]; split;
    try discriminate; try (intros (x & y & H1 & H2 & _); discriminate).
  - intros H. exists ra, rb. repeat split.
    destruct (lex ra rb); try discriminate; reflexivity.
  - intros (x & y & H1 & H2 & H3). injection H1 as <-. injection H2 as <-.
    now rewrite H3.
Qed.

Lemma ltb_trans (x y z : float) :
  (x <? y) = true -> (y <? z) = true -> (x <? z) = true.
Proof.
  rewrite !ltb_spec, !SFltb_rank.
  intros (rx & ry & Hx & Hy & H1) (ry' & rz & Hy' & Hz & H2).
  rewrite Hy in Hy'. injection Hy' as <-.
  exists rx, rz. repeat split; try assumption.
  apply lex_Lt in H1, H2. apply lex_Lt. lia.
Qed.

(** [<] on binary64 is irreflexive. *)
Lemma ltb_irrefl (x : float) : (x <? x) = false.
Proof.
  destruct (x <? x) eqn:E; [|reflexivity].
  now rewrite (Facts.ltb_asym _ _ E) in E.
Qed.

(** If [y] is above [x] and [z] is not above [x], then [z] is not above
    [y] either. *)
Lemma ltb_not_above (x y z : float) :
  (x <? y) = true -> (x <? z) = false -> (y <? z) = false.
Proof.
  intros Hxy Hxz. destruct (y <? z) eqn:E; [|reflexivity].
  now rewrite (ltb_trans _ _ _ Hxy E) in Hxz.
Qed.

Definition not_neg (x : spec_float) : Prop := SFltb x (S754_zero false) = false.

Lemma binary_round_aux_not_neg (mx ex : Z) (lx : location) :
  not_neg (binary_round_aux prec emax false mx ex lx).
Proof.
  unfold binary_round_aux.
  destruct (shr_fexp prec emax mx ex lx) as [mrs' e'].
  destruct (shr_fexp prec emax _ e' loc_Exact) as [mrs'' e''].
  destruct (shr_m mrs''); [reflexivity| |reflexivity].
  destruct (Z.leb e'' (emax - prec)); reflexivity.
Qed.

Lemma sqrt_not_neg (x : float) : (PrimFloat.sqrt x <? 0) = false.
Proof.
  rewrite ltb_spec, sqrt_spec.
  change (Prim2SF 0) with (S754_zero false).
  unfold SF64sqrt, SFsqrt.
  destruct (Prim2SF x) as [s|s| |s m e]; try destruct s; try reflexivity.
  destruct (SFsqrt_core_binary prec emax (Zpos m) e) as [[mz ez] lz].
  apply binary_round_aux_not_neg.
Qed.

Lemma abs_not_neg (x : float) : (abs x <? 0) = false.
Proof.
  rewrite ltb_spec, abs_spec.
  change (Prim2SF 0) with (S754_zero false).
  destruct (Prim2SF x) as [s|s| |s m e]; reflexivity.
Qed.

Lemma div_255_not_neg (x : float) : (x <? 0) = false -> (x / 255 <? 0) = false.
Proof.
  rewrite !ltb_spec, div_spec.
  change (Prim2SF 0) with (S754_zero false).
  set (c := Prim2SF 255). vm_compute in c. subst c.
  unfold SF64div, SFdiv.
  destruct (Prim2SF x) as [s|s| |s m e]; try destruct s; try reflexivity;
    try discriminate.
  intros _.
  destruct (SFdiv_core_binary prec emax (Zpos m) e _ _) as [[mz ez] lz].
  apply binary_round_aux_not_neg.
Qed.

Lemma lex_refl (a : Z * Z * Z) : lex a a = Eq.
Proof.
  destruct a as [[a1 a2] a3]. simpl. now rewrite !Z.compare_refl.
Qed.

(** Whatever is below something is not NaN. *)
Lemma ltb_not_nan (x y : float) : (x <? y) = true -> is_nan x = false.
Proof.
  rewrite ltb_spec, SFltb_rank. intros (rx & ry & Hx & _).
  unfold is_nan. rewrite eqb_spec. unfold SFeqb.
  now rewrite SFcompare_rank, Hx, lex_refl.
Qed.

Lemma nan_not_below (x y : float) : is_nan x = true -> (x <? y) = false.
Proof.
  intros Hn. destruct (x <? y) eqn:E; [|reflexivity].
  now rewrite (ltb_not_nan _ _ E) in Hn.
Qed.

Lemma clip_min_0_not_neg (x : float) : (Np.clip_min x 0 <? 0) = false.
Proof.
  unfold Np.clip_min, Np.maximum.
  destruct (is_nan x) eqn:Hn; [now apply nan_not_below|].
  destruct (0 <? x) eqn:E; [now apply Facts.ltb_asym|reflexivity].
Qed.

Lemma lex_Eq (a b : Z * Z * Z) : lex a b = Eq <-> a = b.
Proof.
  destruct a as [[a1 a2] a3], b as [[b1 b2] b3]. simpl. split.
  - intros H.
    destruct (Z.compare_spec a1 b1); try discriminate.
    destruct (Z.compare_spec a2 b2); try discriminate.
    apply Z.compare_eq in H. now subst.
  - intros [= -> -> ->]. now rewrite !Z.compare_refl.
Qed.

Lemma SFleb_rank (a b : spec_float) :
  SFleb a b = true <->
  exists ra rb, rank a = Some ra /\ rank b = Some rb
                /\ (lex ra rb = Lt \/ ra = rb).
Proof.
  unfold SFleb. rewrite SFcompare_rank.
  destruct (rank a) as [ra|], (rank b) as [rb|]; split;
    try discriminate; try (intros (x & y & H1 & H2 & _); discriminate).
  - intros H. exists ra, rb. repeat split.
    destruct (lex ra rb) eqn:E; try discriminate;
      [right; now apply lex_Eq|now left].
  - intros (x & y & H1 & H2 & H3). injection H1 as <-. injection H2 as <-.
    destruct H3 as [->| ->]; [reflexivity|]. now rewrite lex_refl.
Qed.

(** What is at most [y] is not above [y]. *)
Lemma leb_not_ltb (x y : float) : (x <=? y) = true -> (y <? x) = false.
Proof.
  rewrite leb_spec, SFleb_rank. intros (rx & ry & Hx & Hy & H).
  destruct (y <? x) eqn:E; [|reflexivity].
  rewrite ltb_spec in E. apply SFltb_rank in E.
  destruct E as (ry' & rx' & Hy' & Hx' & E).
  rewrite Hx in Hx'. rewrite Hy in Hy'.
  injection Hx' as <-. injection Hy' as <-.
  apply lex_Lt in E.
  destruct H as [H| ->]; [apply lex_Lt in H|]; lia.
Qed.

Lemma ltb_leb_trans (x y z : float) :
  (x <? y) = true -> (y <=? z) = true -> (x <? z) = true.
Proof.
  rewrite !ltb_spec, leb_spec, !SFltb_rank, SFleb_rank.
  intros (rx & ry & Hx & Hy & H1) (ry' & rz & Hy' & Hz & H2).
  rewrite Hy in Hy'. injection Hy' as <-.
  exists rx, rz. repeat split; try assumption.
  destruct H2 as [H2| <-]; [|exact H1].
  apply lex_Lt in H1, H2. apply lex_Lt. lia.
Qed.

(** What is at least something is not NaN. *)
Lemma leb_not_nan_r (x y : float) : (x <=? y) = true -> is_nan y = false.
Proof.
  rewrite leb_spec, SFleb_rank. intros (rx & ry & _ & Hy & _).
  unfold is_nan. rewrite eqb_spec. unfold SFeqb.
  now rewrite SFcompare_rank, Hy, lex_refl.
Qed.

Lemma leb_not_nan_l (x y : float) : (x <=? y) = true -> is_nan x = false.
Proof.
  rewrite leb_spec, SFleb_rank. intros (rx & ry & Hx & _ & _).
  unfold is_nan. rewrite eqb_spec. unfold SFeqb.
  now rewrite SFcompare_rank, Hx, lex_refl.
Qed.

(** [np.clip(x, 0, 255)] by cases: 0 at or below 0, [x] strictly between
    the bounds, 255 at or above 255. *)
Lemma clip_0_255_low (x : float) : (x <=? 0) = true -> Np.clip x 0 255 = 0.
Proof.
  intros H. unfold Np.clip, Np.minimum, Np.maximum.
  now rewrite (leb_not_nan_l _ _ H), (leb_not_ltb _ _ H).
Qed.

Lemma clip_0_255_inside (x : float) :
  (0 <? x) = true -> (x <? 255) = true -> Np.clip x 0 255 = x.
Proof.
  intros H0 H1. unfold Np.clip, Np.minimum, Np.maximum.
  now rewrite (ltb_not_nan _ _ H1), H0, (ltb_not_nan _ _ H1), H1.
Qed.

Lemma clip_0_255_high (x : float) : (255 <=? x) = true -> Np.clip x 0 255 = 255.
Proof.
  intros H. unfold Np.clip, Np.minimum, Np.maximum.
  assert (H0 : (0 <? x) = true) by now apply (ltb_leb_trans 0 255 x).
  now rewrite (leb_not_nan_r _ _ H), H0, (leb_not_nan_r _ _ H),
              (leb_not_ltb _ _ H).
Qed.

End FloatOrder.

(* ================================================================== *)
(** * Orientation of the sampled card (Color_correction.py, lines 26-40) *)
(* ================================================================== *)

Module Orientation.

Import colorbalance Color_correction.
Open Scope float_scope.

(** The channel sum of patch [i] of a 3x24 sample set. *)
Definition patch_sum (actual_colors : colors3) (i : nat) : float :=
  let '(a, b, c) := nth i actual_colors (0, 0, 0) in Np.sum [a; b; c].

(** The votes as the design document words them, kept apart from the code:
    the expectations are "patch 8 greater than patch 15", "patch 5 greater
    than patch 18" and "patch 0 smaller than patch 23", and a vote
    disagrees with its expectation when that comparison fails. *)
Definition spec_disagreements (actual_colors : colors3) : nat :=
  let fails (expectation : bool) : nat := if expectation then 0%nat else 1%nat in
  let e1 := patch_sum actual_colors 15 <? patch_sum actual_colors 8 in
  let e2 := patch_sum actual_colors 18 <? patch_sum actual_colors 5 in
  let e3 := patch_sum actual_colors 0 <? patch_sum actual_colors 23 in
  (fails e1 + fails e2 + fails e3)%nat.

Lemma votes_24 (actual_colors : colors3) :
  length actual_colors = 24%nat ->
  votes actual_colors =
    Py.Ok (patch_sum actual_colors 15 <? patch_sum actual_colors 8,
           patch_sum actual_colors 18 <? patch_sum actual_colors 5,
           patch_sum actual_colors 0 <? patch_sum actual_colors 23).
Proof.
  intros H.
  destruct (Facts.length24 actual_colors H)
    as (x0&x1&x2&x3&x4&x5&x6&x7&x8&x9&x10&x11&x12&x13&x14&x15&x16&x17&x18
        &x19&x20&x21&x22&x23&->).
  destruct x0 as [[? ?] ?], x5 as [[? ?] ?], x8 as [[? ?] ?],
           x15 as [[? ?] ?], x18 as [[? ?] ?], x23 as [[? ?] ?].
  reflexivity.
Qed.

Lemma patch_sum_rev (actual_colors : colors3) (i : nat) :
  length actual_colors = 24%nat -> (i < 24)%nat ->
  patch_sum (rev actual_colors) i = patch_sum actual_colors (23 - i).
Proof.
  intros H Hi. unfold patch_sum. rewrite rev_nth by lia. rewrite H.
  replace (24 - S i)%nat with (23 - i)%nat by lia. reflexivity.
Qed.

Lemma resolve_orientation_votes (actual_colors : colors3)
    (actual_colors_std : list float) (v : bool * bool * bool) :
  votes actual_colors = Py.Ok v ->
  resolve_orientation actual_colors actual_colors_std =
    Py.Ok (if (2 <=? count_votes v)%nat
           then (rev actual_colors, rev actual_colors_std, true)
           else (actual_colors, actual_colors_std, false)).
Proof.
  intros Hv. unfold resolve_orientation. rewrite Hv. unfold Py.bind.
  destruct (2 <=? count_votes v)%nat; reflexivity.
Qed.

(** C1, as amended.  On a 3x24 sample set the three votes are the
    comparisons "sum of patch 8 > sum of patch 15", "sum of patch 5 > sum
    of patch 18" and "sum of patch 0 < sum of patch 23"; the samples and
    their dispersions are reversed end to end, with the rotated flag set,
    exactly when two or more of these comparisons HOLD.  In particular a
    sample set in canonical order (patch 15 above patch 8, patch 18 above
    patch 5, patch 0 above patch 23 in channel sum) is returned unchanged
    with the flag false, and its reversal is restored to it with the flag
    true. *)
Theorem resolve_orientation_majority (actual_colors : colors3)
    (actual_colors_std : list float) :
  length actual_colors = 24%nat ->
  let v := (patch_sum actual_colors 15 <? patch_sum actual_colors 8,
            patch_sum actual_colors 18 <? patch_sum actual_colors 5,
            patch_sum actual_colors 0 <? patch_sum actual_colors 23) in
  votes actual_colors = Py.Ok v
  /\ resolve_orientation actual_colors actual_colors_std =
       Py.Ok (if (2 <=? count_votes v)%nat
              then (rev actual_colors, rev actual_colors_std, true)
              else (actual_colors, actual_colors_std, false))
  /\ ((patch_sum actual_colors 8 <? patch_sum actual_colors 15) = true ->
      (patch_sum actual_colors 5 <? patch_sum actual_colors 18) = true ->
      (patch_sum actual_colors 23 <? patch_sum actual_colors 0) = true ->
      resolve_orientation actual_colors actual_colors_std =
        Py.Ok (actual_colors, actual_colors_std, false)
      /\ resolve_orientation (rev actual_colors) (rev actual_colors_std) =
           Py.Ok (actual_colors, actual_colors_std, true)).
Proof.
  intros H v.
  assert (Hv : votes actual_colors = Py.Ok v) by (apply votes_24, H).
  split; [exact Hv|]. split; [apply resolve_orientation_votes, Hv|].
  intros H1 H2 H3. split.
  - rewrite (resolve_orientation_votes _ _ _ Hv). subst v.
    rewrite (Facts.ltb_asym _ _ H1), (Facts.ltb_asym _ _ H2),
            (Facts.ltb_asym _ _ H3).
    reflexivity.
  - assert (Hr : length (rev actual_colors) = 24%nat)
      by (rewrite length_rev; exact H).
    rewrite (resolve_orientation_votes _ _ _ (votes_24 _ Hr)).
    rewrite !patch_sum_rev by (assumption || lia). simpl Nat.sub.
    rewrite H1, H2, H3. simpl. now rewrite !rev_involutive.
Qed.

(** The reference table in canonical order, with dispersions of zero, meets
    the hypotheses of [resolve_orientation_majority]. *)
Lemma resolve_orientation_majority_witness :
  length ColorCheckerRGB_CameraTrax = 24%nat
  /\ resolve_orientation ColorCheckerRGB_CameraTrax (repeat 0 24) =
       Py.Ok (ColorCheckerRGB_CameraTrax, repeat 0 24, false)
  /\ resolve_orientation (rev ColorCheckerRGB_CameraTrax) (rev (repeat 0 24)) =
       Py.Ok (ColorCheckerRGB_CameraTrax, repeat 0 24, true).
Proof.
  split; [reflexivity|].
  apply (resolve_orientation_majority ColorCheckerRGB_CameraTrax (repeat 0 24)
           eq_refl); reflexivity.
Defined.

(** C1 as stated fails.  On the reference table in canonical order all three
    expectations of the design document fail (372 > 467, 456 > 730 and
    266 < 152 are false), so two or more votes "disagree with expectation";
    yet the code leaves the sequence as it is and reports no rotation. *)
Lemma resolve_orientation_counterexample :
  spec_disagreements ColorCheckerRGB_CameraTrax = 3%nat
  /\ resolve_orientation ColorCheckerRGB_CameraTrax (repeat 0 24) =
       Py.Ok (ColorCheckerRGB_CameraTrax, repeat 0 24, false).
Proof. split; reflexivity. Qed.

End Orientation.

(* ================================================================== *)
(** * Applying a fitted model to an image (colorbalance.py, [correct_color]) *)
(* ================================================================== *)

Module Applier.

Import colorbalance.
Open Scope float_scope.

(** [np_power] for exponent 1 only, enough to run the identity model. *)
Definition power_one (x _g : float) : float := x.

(** What [np.clip(x, 0, 255).astype(np.uint8)] makes of one channel value
    [x]: the byte is the conversion of the clipped value; a value at or
    below 0 is clipped to 0 and gives the pixel 0, a value strictly between
    0 and 255 is kept and gives the pixel [int(x)], its fraction dropped, a
    value at or above 255 is clipped to 255 and gives the pixel 255; and
    unless [x] is NaN the clipped value lies in [0, 255] and the byte is
    that value with its fraction dropped (the conversion truncates toward
    zero and, in that range, does not wrap). *)
Definition clipped_channel (x : float) (b : byte) : Prop :=
  b = Np.astype_uint8 (Np.clip x 0 255)
  /\ ((x <=? 0) = true -> Np.clip x 0 255 = 0 /\ b = x00)
  /\ ((0 <? x) = true -> (x <? 255) = true ->
      Np.clip x 0 255 = x /\ Z.of_N (Byte.to_N b) = Np.py_int x)
  /\ ((255 <=? x) = true -> Np.clip x 0 255 = 255 /\ b = xff)
  /\ (is_nan x = false ->
      (0 <=? Np.clip x 0 255) = true
      /\ (Np.clip x 0 255 <=? 255) = true
      /\ Z.of_N (Byte.to_N b) = Np.py_int (Np.clip x 0 255)).

(** The conversion as the design document words it: the value clipped
    into [0, 255] and then rounded to the nearest integral value. *)
Definition spec_rounded_channel (x : float) : byte :=
  Np.astype_uint8 (Np.round (Np.clip x 0 255)).

Definition spec_rounded_pixel (v : vec3) : pixel :=
  let '(a, b, c) := v in
  (spec_rounded_channel a, spec_rounded_channel b, spec_rounded_channel c).

Definition clipped_pixel (v : vec3) (q : pixel) : Prop :=
  let '(x0, x1, x2) := v in
  let '(b0, b1, b2) := q in
  clipped_channel x0 b0 /\ clipped_channel x1 b1 /\ clipped_channel x2 b2.

Lemma clipped_channel_intro (x : float) :
  clipped_channel x (Np.astype_uint8 (Np.clip x 0 255)).
Proof.
  assert (Hin : is_nan x = false ->
                (0 <=? Np.clip x 0 255) = true
                /\ (Np.clip x 0 255 <=? 255) = true
                /\ Z.of_N (Byte.to_N (Np.astype_uint8 (Np.clip x 0 255)))
                   = Np.py_int (Np.clip x 0 255)).
  { intros Hx. destruct (Facts.clip_0_255_bounds x Hx) as [H0 H1].
    repeat split; try assumption.
    now apply Facts.astype_uint8_no_wrap. }
  split; [reflexivity|]. split; [|split; [|split; [|exact Hin]]].
  - intros H. rewrite (FloatOrder.clip_0_255_low x H).
    split; [reflexivity|vm_compute; reflexivity].
  - intros H0 H1. pose proof (FloatOrder.clip_0_255_inside x H0 H1) as Hc.
    split; [exact Hc|].
    destruct (Hin (FloatOrder.ltb_not_nan _ _ H1)) as (_ & _ & Hb).
    rewrite Hc in Hb |- *. exact Hb.
  - intros H. rewrite (FloatOrder.clip_0_255_high x H).
    split; [reflexivity|vm_compute; reflexivity].
Qed.

Lemma uint8_pixel_clipped (v : vec3) : clipped_pixel v (uint8_pixel v).
Proof.
  destruct v as [[x0 x1] x2]. unfold clipped_pixel, uint8_pixel.
  split; [|split]; apply clipped_channel_intro.
Qed.

Lemma identity_pixel (np_power : float -> float -> float) (p : pixel) :
  (forall x, np_power x 1 = x) ->
  uint8_pixel (gamma_correct_column np_power eye3 zeros3 ones3 (float_pixel p))
  = p.
Proof.
  intros Hpow. destruct p as [[a b] c].
  unfold gamma_correct_column, eye3, zeros3, ones3, float_pixel, dot_row,
         uint8_pixel.
  rewrite !Hpow, !Facts.mul_1_byte, !Facts.mul_0_byte.
  change (0 + 0) with 0.
  rewrite !Facts.add_0_l_byte, !Facts.add_0_r_byte, !Facts.channel_roundtrip.
  reflexivity.
Qed.

(** C8.  With the mixing matrix the identity, the offset zero and every
    gamma exponent one, [correct_color] returns its input image: same shape
    and the same [uint8] value in every channel of every pixel.  On [uint8]
    pixels the scaling by 255, the clipping and the conversion lose nothing.
    The only thing asked of [np.power] is that raising to the power 1
    returns its argument. *)
Theorem correct_color_identity (np_power : float -> float -> float)
    (img : image) :
  (forall x, np_power x 1 = x) ->
  correct_color np_power img eye3 zeros3 ones3 = img.
Proof.
  intros Hpow. destruct img as [h w l].
  unfold correct_color, _gamma_correction_model. cbn [shape0 shape1 buf].
  f_equal. rewrite !map_map. rewrite <- (map_id l) at 2.
  apply map_ext. intros p. now apply identity_pixel.
Qed.

(** The identity model on a one-by-three picture. *)
Lemma correct_color_identity_witness :
  let img := mk_image 1 3 [(x00, x7f, xff); (x01, x02, x03); (xfe, x80, x10)] in
  (forall x, power_one x 1 = x)
  /\ correct_color power_one img eye3 zeros3 ones3 = img.
Proof.
  intros img. split; [reflexivity|].
  apply (correct_color_identity power_one img). reflexivity.
Defined.

(** C9, as amended.  For every image and every model, [correct_color]
    returns an image of the same shape with as many pixels; pixel by pixel,
    each output channel is the model's value clipped into [0, 255] (0 for a
    value at or below 0, 255 for a value at or above 255, the value itself
    in between) and then truncated toward zero to an integral [uint8]
    value: the fraction is dropped, the value is not rounded to the nearest
    integer. *)
Theorem correct_color_shape_and_range (np_power : float -> float -> float)
    (img : image) (color_alpha : mat3) (color_constant color_gamma : vec3) :
  let out := correct_color np_power img color_alpha color_constant color_gamma in
  shape0 out = shape0 img
  /\ shape1 out = shape1 img
  /\ length (buf out) = length (buf img)
  /\ Forall2
       (fun p q =>
          clipped_pixel
            (gamma_correct_column np_power color_alpha color_constant
               color_gamma (float_pixel p)) q)
       (buf img) (buf out).
Proof.
  intros out. subst out. unfold correct_color, _gamma_correction_model.
  cbn [shape0 shape1 buf].
  repeat split; try reflexivity.
  - now rewrite !length_map.
  - induction (buf img) as [|p l IH]; simpl; constructor.
    + apply uint8_pixel_clipped.
    + exact IH.
Qed.

(** C9 as stated fails.  With the identity matrix, an offset of 0.9 and
    gamma exponents of 1, the pixel values 6 and 254 are mapped to 6.9 and
    254.9.  The code returns 6 and 254 again, the fractions dropped;
    clipping and then rounding to an integral value, as the claim words it,
    gives 7 and 255. *)
Lemma correct_color_counterexample :
  buf (correct_color power_one
         (mk_image 1 2 [(x06, x06, x06); (xfe, xfe, xfe)])
         eye3 (0.9, 0.9, 0.9) ones3)
  = [(x06, x06, x06); (xfe, xfe, xfe)]
  /\ map spec_rounded_pixel
         (_gamma_correction_model power_one
            (map float_pixel [(x06, x06, x06); (xfe, xfe, xfe)])
            eye3 (0.9, 0.9, 0.9) ones3)
     = [(x07, x07, x07); (xff, xff, xff)].
Proof. split; vm_compute; reflexivity. Qed.

End Applier.

(* ================================================================== *)
(** * Template search over scales and angles (Detect_colorChecker.py) *)
(* ================================================================== *)

Module Detection.

Import Detect_colorChecker.
Open Scope float_scope.
Open Scope py_scope.

(** A toy image library to run the search on: an edge map is its shape
    [(rows, columns)], resizing keeps the aspect ratio, rotation changes
    nothing and the match score of a resized map is its number of
    columns, found at the origin. *)
Module Toy.

Definition gray_img : Set := (Z * Z)%type.
Definition color_img : Set := (Z * Z)%type.
Definition shape (g : gray_img) : Z * Z := g.
Definition ndimage_rotate (g : gray_img) (_ : Py.num) : gray_img := g.
Definition ndimage_rotate_color (c : color_img) (_ : Py.num) : color_img := c.
Definition imutils_resize (g : gray_img) (width : Z) : gray_img :=
  ((fst g * width / snd g)%Z, width).
Definition matchTemplate (resized _card : gray_img) : float * (Z * Z) :=
  (Np.float_of_Z (snd resized), (0%Z, 0%Z)).
Definition cvtColor_BGR2GRAY (c : color_img) : gray_img := c.
Definition Canny (g : gray_img) (_ _ : float) : gray_img := g.
Definition crop (c : color_img) (startY endY startX endX : Z) : color_img :=
  ((endY - startY)%Z, (endX - startX)%Z).

Definition scale_loop :=
  Detect_colorChecker.scale_loop gray_img shape imutils_resize matchTemplate.
Definition paralell_search :=
  Detect_colorChecker.paralell_search gray_img shape ndimage_rotate
    imutils_resize matchTemplate.
Definition detect_card :=
  Detect_colorChecker.detect_card gray_img color_img shape ndimage_rotate
    ndimage_rotate_color imutils_resize matchTemplate cvtColor_BGR2GRAY Canny
    crop.

End Toy.

Section Properties.

Variable gray_img : Type.
Variable color_img : Type.
Variable shape : gray_img -> Z * Z.
Variable ndimage_rotate : gray_img -> Py.num -> gray_img.
Variable ndimage_rotate_color : color_img -> Py.num -> color_img.
Variable imutils_resize : gray_img -> Z -> gray_img.
Variable matchTemplate : gray_img -> gray_img -> float * (Z * Z).
Variable cvtColor_BGR2GRAY : color_img -> gray_img.
Variable Canny : gray_img -> float -> float -> gray_img.
Variable crop : color_img -> Z -> Z -> Z -> Z -> color_img.

Local Abbreviation resized_at := (resized_at gray_img shape imutils_resize).
Local Abbreviation too_small := (too_small gray_img shape).
Local Abbreviation scale_loop :=
  (scale_loop gray_img shape imutils_resize matchTemplate).
Local Abbreviation rotated := (rotated gray_img ndimage_rotate).
Local Abbreviation paralell_search :=
  (paralell_search gray_img shape ndimage_rotate imutils_resize matchTemplate).
Local Abbreviation detect_card :=
  (detect_card gray_img color_img shape ndimage_rotate ndimage_rotate_color
     imutils_resize matchTemplate cvtColor_BGR2GRAY Canny crop).

(** The resized image has at least one column, so that the ratio [r] can
    be computed. *)
Definition has_columns (gray gray_rot : gray_img) (scale2 : float) : Prop :=
  (snd (shape (resized_at gray gray_rot scale2)) =? 0)%Z = false.

(** The template fits into the image resized by [scale2]. *)
Definition fits (gray gray_rot : gray_img) (H_card W_card : Z)
    (scale2 : float) : Prop :=
  has_columns gray gray_rot scale2
  /\ too_small (resized_at gray gray_rot scale2) H_card W_card = false.

Lemma scale_loop_break (gray gray_rot card : gray_img) (H_card W_card : Z)
    (pre post : list float) (scale2 : float) :
  has_columns gray gray_rot scale2 ->
  too_small (resized_at gray gray_rot scale2) H_card W_card = true ->
  forall found,
    scale_loop gray gray_rot card H_card W_card found (pre ++ scale2 :: post)
    = scale_loop gray gray_rot card H_card W_card found pre.
Proof.
  unfold has_columns. intros Hc Hs.
  induction pre as [|s pre IH]; intros found; simpl.
  - now rewrite Hc, Hs.
  - destruct (snd (shape (resized_at gray gray_rot s)) =? 0)%Z; [reflexivity|].
    destruct (too_small (resized_at gray gray_rot s) H_card W_card);
      [reflexivity|].
    destruct (matchTemplate (resized_at gray gray_rot s) card) as [maxVal maxLoc].
    now rewrite IH.
Qed.

Lemma scale_loop_fits (gray gray_rot card : gray_img) (H_card W_card : Z)
    (scales : list float) :
  Forall (fits gray gray_rot H_card W_card) scales ->
  forall found, exists res,
    scale_loop gray gray_rot card H_card W_card found scales = Ok (res, scales).
Proof.
  induction 1 as [|s scales [Hc Hs] _ IH]; intros found; simpl.
  - now exists found.
  - unfold has_columns in Hc. rewrite Hc, Hs.
    destruct (matchTemplate (resized_at gray gray_rot s) card) as [maxVal maxLoc].
    match goal with
    | |- context [Detect_colorChecker.scale_loop _ _ _ _ _ _ _ _ _ ?f scales] =>
        destruct (IH f) as [res Hres]
    end.
    exists res. now rewrite Hres.
Qed.

(** C7.  If the template fits at every scale of [pre] and [scale2] is the
    first scale whose resized image is smaller than the template in either
    dimension, the loop over [pre ++ scale2 :: post] returns what the loop
    over [pre] alone returns, and the scales on which the template was
    matched are exactly those of [pre]: nothing of [post] is evaluated,
    whatever it holds. *)
Theorem scale_loop_stops_at_first_small (gray gray_rot card : gray_img)
    (H_card W_card : Z) (found : option found_t) (pre post : list float)
    (scale2 : float) :
  Forall (fits gray gray_rot H_card W_card) pre ->
  has_columns gray gray_rot scale2 ->
  too_small (resized_at gray gray_rot scale2) H_card W_card = true ->
  exists res,
    scale_loop gray gray_rot card H_card W_card found (pre ++ scale2 :: post)
      = Ok (res, pre)
    /\ scale_loop gray gray_rot card H_card W_card found pre = Ok (res, pre).
Proof.
  intros Hpre Hc Hs.
  destruct (scale_loop_fits gray gray_rot card H_card W_card pre Hpre found)
    as [res Hres].
  exists res. split; [|exact Hres].
  now rewrite (scale_loop_break gray gray_rot card H_card W_card pre post
                 scale2 Hc Hs found).
Qed.

Lemma scale_loop_returns (gray gray_rot card : gray_img) (H_card W_card : Z)
    (scales : list float) :
  (forall s, In s scales -> has_columns gray gray_rot s) ->
  forall found, exists out,
    scale_loop gray gray_rot card H_card W_card found scales = Ok out.
Proof.
  unfold has_columns.
  induction scales as [|s scales IH]; intros Hc found; simpl.
  - now eexists.
  - rewrite (Hc s) by now left.
    destruct (too_small (resized_at gray gray_rot s) H_card W_card);
      [now eexists|].
    destruct (matchTemplate (resized_at gray gray_rot s) card) as [maxVal maxLoc].
    match goal with
    | |- context [Detect_colorChecker.scale_loop _ _ _ _ _ _ _ _ _ ?f scales] =>
        destruct (IH (fun s' Hs' => Hc s' (or_intror Hs')) f) as [[res tr] Hres]
    end.
    rewrite Hres. now eexists.
Qed.

Lemma paralell_search_returns (scales : list float) (degree : Py.num)
    (gray card : gray_img) (H_card W_card : Z) :
  (forall s, In s scales -> has_columns gray (rotated gray degree) s) ->
  exists found,
    paralell_search scales degree gray H_card W_card card = Ok found.
Proof.
  intros Hc. unfold Detect_colorChecker.paralell_search,
                    Detect_colorChecker.paralell_search_trace.
  destruct (scale_loop_returns gray (rotated gray degree) card H_card W_card
              scales Hc None) as [[res tr] Hres].
  rewrite Hres. now eexists.
Qed.

(** An angle at which no scale lets the template fit has nothing to
    report: [paralell_search] returns [None]. *)
Lemma paralell_search_none (scales : list float) (degree : Py.num)
    (gray card : gray_img) (H_card W_card : Z) :
  (forall s, In s scales -> has_columns gray (rotated gray degree) s) ->
  Forall (fun s => too_small (resized_at gray (rotated gray degree) s)
                     H_card W_card = true) scales ->
  paralell_search scales degree gray H_card W_card card = Ok None.
Proof.
  intros Hc Hs. unfold Detect_colorChecker.paralell_search,
                       Detect_colorChecker.paralell_search_trace.
  destruct Hs as [|s scales Hs _]; simpl; [reflexivity|].
  specialize (Hc s (or_introl eq_refl)). unfold has_columns in Hc.
  now rewrite Hc, Hs.
Qed.

Lemma Parallel_returns {A B : Type} (f : A -> result B) (l : list A) :
  (forall a, In a l -> exists b, f a = Ok b) ->
  exists bs, Parallel f l = Ok bs /\ Forall2 (fun a b => f a = Ok b) l bs.
Proof.
  induction l as [|a l IH]; intros Hf; simpl.
  - exists []. split; [reflexivity|constructor].
  - destruct (Hf a (or_introl eq_refl)) as [b Hb].
    destruct (IH (fun a' Ha' => Hf a' (or_intror Ha'))) as [bs [Hbs Hall]].
    exists (b :: bs). rewrite Hb, Hbs. split; [reflexivity|].
    now constructor.
Qed.

Lemma unzip_results_none (results : list (option found_t)) :
  In None results -> unzip_results results = Raise TypeError.
Proof.
  induction results as [|[f|] results IH]; simpl; intros Hin.
  - contradiction.
  - destruct Hin as [Hin|Hin]; [discriminate|]. now rewrite IH.
  - reflexivity.
Qed.

(** C2, as the code behaves.  Let no resized image be without columns (so
    that no search call raises).  If at some angle of [search_degree] the
    template fits at no scale, the search of that angle returns [None] and
    [detect_card] raises [TypeError] when it unpacks the results, whatever
    the other angles found: the failure of one angle is fatal for the whole
    call, and no confidence is reported. *)
Theorem detect_card_raises_when_an_angle_fails (img : color_img)
    (card : gray_img) (search_scale : list float)
    (search_degree : list Py.num) (degree : Py.num) :
  let edged := Canny (cvtColor_BGR2GRAY img) 40 50 in
  (forall d s, In d search_degree -> In s search_scale ->
               has_columns edged (rotated edged d) s) ->
  In degree search_degree ->
  Forall (fun s => too_small (resized_at edged (rotated edged degree) s)
                     (fst (shape card)) (snd (shape card)) = true)
         search_scale ->
  paralell_search search_scale degree edged
    (fst (shape card)) (snd (shape card)) card = Ok None
  /\ detect_card img card search_scale search_degree = Raise TypeError.
Proof.
  intros edged Hc Hin Hs.
  assert (Hnone : paralell_search search_scale degree edged
                    (fst (shape card)) (snd (shape card)) card = Ok None).
  { apply paralell_search_none; [|exact Hs].
    intros s Hsin. now apply Hc. }
  split; [exact Hnone|].
  unfold Detect_colorChecker.detect_card.
  destruct (shape card) as [H_card W_card]. cbn [fst snd] in *.
  fold edged.
  destruct (Parallel_returns
              (fun d => paralell_search search_scale d edged H_card W_card card)
              search_degree) as [results [Hres Hall]].
  { intros d Hd. apply paralell_search_returns.
    intros s Hsin. now apply Hc. }
  rewrite Hres. cbn [bind].
  rewrite unzip_results_none; [reflexivity|].
  clear Hres Hc. revert Hin.
  induction Hall as [|d r ds rs Hd _ IH]; intros Hin; [contradiction|].
  destruct Hin as [<-|Hin].
  - left. rewrite Hnone in Hd. now injection Hd.
  - right. now apply IH.
Qed.

End Properties.

(** A 100x100 edge map and a 60x60 template: scale 1 fits, scale 0.5 is
    too small, and scale 2, which would fit and score higher, is never
    reached. *)
Lemma scale_loop_stops_at_first_small_witness :
  Forall (fits Toy.gray_img Toy.shape Toy.imutils_resize
            (100, 100)%Z (100, 100)%Z 60 60) [1]
  /\ Toy.scale_loop (100, 100)%Z (100, 100)%Z (60, 60)%Z 60 60 None [2]
     = Ok (Some (200, (0, 0)%Z, 0.5, 2), [2])
  /\ exists res,
       Toy.scale_loop (100, 100)%Z (100, 100)%Z (60, 60)%Z 60 60 None
         ([1] ++ 0.5 :: [2]) = Ok (res, [1])
       /\ Toy.scale_loop (100, 100)%Z (100, 100)%Z (60, 60)%Z 60 60 None [1]
          = Ok (res, [1]).
Proof.
  assert (H1 : Forall (fits Toy.gray_img Toy.shape Toy.imutils_resize
                         (100, 100)%Z (100, 100)%Z 60 60) [1]).
  { constructor; [|constructor]. split; reflexivity. }
  split; [exact H1|]. split; [reflexivity|].
  apply (scale_loop_stops_at_first_small Toy.gray_img Toy.shape
           Toy.imutils_resize Toy.matchTemplate
           (100, 100)%Z (100, 100)%Z (60, 60)%Z 60 60 None [1] [2] 0.5 H1);
    reflexivity.
Defined.

(** A 50x50 photo and a 60x60 template, one scale and two angles: the
    template fits at no angle and the call raises. *)
Lemma detect_card_raises_when_an_angle_fails_witness :
  Toy.paralell_search [1] (Py.Int 0) (50, 50)%Z 60 60 (60, 60)%Z = Ok None
  /\ Toy.detect_card (50, 50)%Z (60, 60)%Z [1] [Py.Int 0; Py.Float 2.5]
     = Raise TypeError.
Proof.
  apply (detect_card_raises_when_an_angle_fails Toy.gray_img Toy.color_img
           Toy.shape Toy.ndimage_rotate Toy.ndimage_rotate_color
           Toy.imutils_resize Toy.matchTemplate Toy.cvtColor_BGR2GRAY
           Toy.Canny Toy.crop (50, 50)%Z (60, 60)%Z [1]
           [Py.Int 0; Py.Float 2.5] (Py.Int 0)).
  - intros d s _ [<-|[]]. reflexivity.
  - now left.
  - constructor; [reflexivity|constructor].
Defined.

End Detection.

(* ================================================================== *)
(** * The correction pipeline (Color_correction.py) *)
(* ================================================================== *)

Module Pipeline.

Import colorbalance Color_correction.
Open Scope float_scope.
Open Scope py_scope.

(** Stand-ins to run the pipeline on: a power function good for exponent
    1, a fit that returns its starting point (the identity model), a
    random generator that always draws one half, and a file system in
    which the directory [out] exists and every write succeeds. *)
Module Toy.

Definition np_power (x _g : float) : float := x.
Definition leastsq (_ : params -> list float) (x0 : params) : params := x0.
Definition np_random_rand (_ : nat) : colors3 := repeat (0.5, 0.5, 0.5) 24.
Definition os_path_exists (d : string) : bool := String.eqb d "out".
Definition os_makedirs (_ : string) : result unit := Ok tt.
Definition cv2_imwrite (_ : string) (_ : image) : result unit := Ok tt.

Definition fit_loop := Color_correction.fit_loop np_power leastsq np_random_rand.
Definition correct_samples :=
  Color_correction.correct_samples np_power leastsq os_path_exists os_makedirs
    cv2_imwrite np_random_rand.
Definition Color_correct_and_write :=
  Color_correction.Color_correct_and_write np_power leastsq os_path_exists
    os_makedirs cv2_imwrite np_random_rand.

(** The reference table with [d] added to every red value. *)
Definition red_shifted (d : float) : colors3 :=
  map (fun c : vec3 => let '(r, g, b) := c in (r + d, g, b))
      ColorCheckerRGB_CameraTrax.

(** A 20x30 card of alternating white and black pixels: every sampling
    window holds both, and every patch dispersion is far above 90. *)
Definition checkerboard : image :=
  mk_image 20 30
    (map (fun i => if Nat.even i then (xff, xff, xff) else (x00, x00, x00))
         (seq 0 600)).

Definition photo : image := mk_image 1 2 [(x10, x20, x30); (xff, x00, x80)].

End Toy.

(** What the damaged path returns: [(True, False, 0)], nothing written, no
    fit and no random draw. *)
Definition damaged_run : run := mk_run true false 0 None 0 0.

Section Properties.

Variable np_power : float -> float -> float.
Variable leastsq : (params -> list float) -> params -> params.
Variable os_path_exists : string -> bool.
Variable os_makedirs : string -> result unit.
Variable cv2_imwrite : string -> image -> result unit.
Variable np_random_rand : nat -> colors3.

Local Abbreviation fit_loop := (fit_loop np_power leastsq np_random_rand).
Local Abbreviation correct_samples :=
  (correct_samples np_power leastsq os_path_exists os_makedirs cv2_imwrite
     np_random_rand).
Local Abbreviation Color_correct_and_write :=
  (Color_correct_and_write np_power leastsq os_path_exists os_makedirs
     cv2_imwrite np_random_rand).

Lemma retry_iff (Acc : float) (errs : list float) (it : nat) :
  retry Acc errs it = true
  <-> (0.4 <? Acc) = true /\ (40 <? Np.mean errs) = true /\ (it < 6)%nat.
Proof.
  unfold retry. rewrite !andb_true_iff, Nat.ltb_lt. tauto.
Qed.

(** The loop entered after [it] passes, with [n] passes still allowed. *)
Lemma fit_loop_returns (Acc : float) (actual_colors : colors3) (n : nat) :
  forall (it fuel : nat) (actual_colors2 : colors3) (k : nat),
    (it + n = 6)%nat -> (1 <= n)%nat -> (n <= fuel)%nat ->
    exists st,
      fit_loop fuel Acc actual_colors it actual_colors2 k = Ok st
      /\ (it < iter st <= 6)%nat
      /\ (draws st + S it = k + iter st)%nat
      /\ retry Acc (errors st) (iter st) = false.
Proof.
  induction n as [|n IH]; intros it fuel actual_colors2 k Hit Hn Hfuel;
    [lia|].
  destruct fuel as [|fuel]; [lia|]. simpl.
  destruct (get_color_correction_parameters np_power leastsq
              ColorCheckerRGB_CameraTrax actual_colors2)
    as [[color_alpha color_constant] color_gamma].
  match goal with |- context [retry Acc ?e (S it)] => set (errs := e) end.
  destruct (retry Acc errs (S it)) eqn:Hretry.
  - apply retry_iff in Hretry. destruct Hretry as (_ & _ & Hlt).
    destruct (IH (S it) fuel
                 (add_colors actual_colors (np_random_rand k)) (S k))
      as (st & Hst & Hiter & Hdraws & Hstop); try lia.
    exists st. repeat split; try assumption; lia.
  - eexists. split; [reflexivity|]. simpl. repeat split; try lia.
    exact Hretry.
Qed.

(** C6.  A pass of the loop is followed by another exactly when
    [Acc > 0.4], the mean error is above 40 and fewer than 6 passes have
    been made; the next pass then fits the sampled colors plus a fresh
    random array (the noise does not accumulate).  With fuel for 6 passes
    the loop returns, after between 1 and 6 fits and one random draw less
    than it made fits, in a state that asks for no further pass. *)
Theorem fit_loop_bounded (Acc : float) (actual_colors : colors3) :
  (forall errs it,
      retry Acc errs it = true
      <-> (0.4 <? Acc) = true /\ (40 <? Np.mean errs) = true /\ (it < 6)%nat)
  /\ (forall fuel it actual_colors2 k,
        let p := get_color_correction_parameters np_power leastsq
                   ColorCheckerRGB_CameraTrax actual_colors2 in
        let errs :=
          color_errors ColorCheckerRGB_CameraTrax
            (_gamma_correction_model np_power actual_colors2
               (fst (fst p)) (snd (fst p)) (snd p)) in
        fit_loop (S fuel) Acc actual_colors it actual_colors2 k
        = if retry Acc errs (S it)
          then fit_loop fuel Acc actual_colors (S it)
                 (add_colors actual_colors (np_random_rand k)) (S k)
          else Ok (mk_fit (S it) p errs k))
  /\ (forall fuel, (6 <= fuel)%nat ->
        exists st,
          fit_loop fuel Acc actual_colors 0 actual_colors 0 = Ok st
          /\ (1 <= iter st <= 6)%nat
          /\ (draws st + 1 = iter st)%nat
          /\ retry Acc (errors st) (iter st) = false).
Proof.
  split; [intros errs it; apply retry_iff|]. split.
  - intros fuel it actual_colors2 k. simpl.
    destruct (get_color_correction_parameters np_power leastsq
                ColorCheckerRGB_CameraTrax actual_colors2)
      as [[color_alpha color_constant] color_gamma].
    reflexivity.
  - intros fuel Hfuel.
    destruct (fit_loop_returns Acc actual_colors 6 0 fuel actual_colors 0)
      as (st & Hst & Hiter & Hdraws & Hstop); try lia.
    exists st. repeat split; try assumption; lia.
Qed.

Lemma cvtColor_inv (img out : image) :
  cvtColor img = Ok out ->
  out = cvtColor_swap img
  /\ shape0 img <> 0%nat /\ shape1 img <> 0%nat.
Proof.
  unfold cvtColor.
  destruct (Nat.eqb_spec (shape0 img) 0), (Nat.eqb_spec (shape1 img) 0);
    cbn [orb]; try discriminate.
  intros [= <-]. now repeat split.
Qed.

(** When [round] returns, the percentage is [error_percent]. *)
Lemma rounded_percent_inv (errs : list float) (err : float) :
  rounded_percent errs = Ok err -> err = error_percent errs.
Proof.
  unfold rounded_percent, Np.builtin_round, error_percent.
  destruct (is_nan _); [discriminate|].
  destruct (is_infinity _); [discriminate|].
  cbn [bind]. now intros [= <-].
Qed.

(** What is handed to [cv2.imwrite] is the corrected image in BGR order,
    under the name given. *)
Lemma write_corrected_inv (ImageRGBCorrected : image)
    (study_file_name : string) (w : string * image) :
  write_corrected os_path_exists os_makedirs cv2_imwrite ImageRGBCorrected
    study_file_name = Ok w ->
  w = (study_file_name, cvtColor_swap ImageRGBCorrected).
Proof.
  unfold write_corrected.
  destruct (cvtColor ImageRGBCorrected) as [out|e|] eqn:Hc;
    cbn [bind]; try discriminate.
  destruct (cvtColor_inv _ _ Hc) as [-> _].
  destruct (if path_exists os_path_exists _ then _ else _) as [[]|e|];
    cbn [bind]; try discriminate.
  destruct (cv2_imwrite study_file_name _) as [[]|e|];
    cbn [bind]; try discriminate.
  now intros [= <-].
Qed.

(** The file written by an undamaged run whose fit ended in [st]. *)
Definition emitted (st : fit_state) (ImageRGB : image)
    (study_file_name : string) : option (string * image) :=
  let '(color_alpha, color_constant, color_gamma) := fit_params st in
  if error_percent (errors st) <? 50
  then Some (study_file_name,
             cvtColor_swap (correct_color np_power ImageRGB color_alpha
                              color_constant color_gamma))
  else None.

Lemma correct_samples_damaged (fuel : nat) (actual_colors : colors3)
    (actual_colors_std : list float) (ImageRGB : image)
    (study_file_name : string) (Acc : float) :
  existsb (fun s => 90 <? s) actual_colors_std = true ->
  correct_samples fuel actual_colors actual_colors_std ImageRGB
    study_file_name Acc = Ok damaged_run.
Proof.
  intros H. unfold Color_correction.correct_samples. now rewrite H.
Qed.

(** Every result of the pipeline that is not the damaged one comes from an
    orientation step and a fit. *)
Lemma correct_samples_inv (fuel : nat) (actual_colors : colors3)
    (actual_colors_std : list float) (ImageRGB : image)
    (study_file_name : string) (Acc : float) (r : run) :
  correct_samples fuel actual_colors actual_colors_std ImageRGB
    study_file_name Acc = Ok r ->
  (existsb (fun s => 90 <? s) actual_colors_std = true /\ r = damaged_run)
  \/ (existsb (fun s => 90 <? s) actual_colors_std = false
      /\ exists ac std rotated st,
           resolve_orientation actual_colors actual_colors_std
             = Ok (ac, std, rotated)
           /\ length ac = 24%nat
           /\ fit_loop fuel Acc ac 0 ac 0 = Ok st
           /\ r = mk_run false rotated (error_percent (errors st))
                    (emitted st ImageRGB study_file_name)
                    (iter st) (draws st)).
Proof.
  unfold Color_correction.correct_samples.
  destruct (existsb (fun s => 90 <? s) actual_colors_std) eqn:Hd.
  - intros H. left. split; [reflexivity|]. now injection H.
  - intros H. right. split; [reflexivity|].
    destruct (resolve_orientation actual_colors actual_colors_std)
      as [[[ac std] rotated]|e|] eqn:Hres; cbn [bind] in H; try discriminate.
    destruct (length ac =? 24)%nat eqn:Hlen; cbn [negb] in H;
      try discriminate.
    destruct (fit_loop fuel Acc ac 0 ac 0) as [st|e|] eqn:Hfit;
      cbn [bind] in H; try discriminate.
    exists ac, std, rotated, st.
    split; [reflexivity|]. split; [now apply Nat.eqb_eq|].
    split; [exact Hfit|].
    unfold emitted.
    destruct (fit_params st) as [[color_alpha color_constant] color_gamma].
    destruct (rounded_percent (errors st)) as [err|e|] eqn:Herr;
      cbn [bind] in H; try discriminate.
    apply rounded_percent_inv in Herr. subst err.
    destruct (error_percent (errors st) <? 50).
    + destruct (write_corrected _ _ _ _ _) as [w|e|] eqn:Hw;
        cbn [bind] in H; try discriminate.
      apply write_corrected_inv in Hw. subst w. now injection H.
    + cbn [bind] in H. now injection H.
Qed.

(** C4.  The pipeline reports damage if and only if some patch dispersion
    is strictly above 90, and then returns the damaged result at once.
    Dispersions all equal to 90 never give a damaged result; a dispersion
    of 91 among them always does. *)
Theorem damage_gate_strict (fuel : nat) (actual_colors : colors3)
    (actual_colors_std : list float) (ImageRGB : image)
    (study_file_name : string) (Acc : float) :
  let out := correct_samples fuel actual_colors actual_colors_std ImageRGB
               study_file_name Acc in
  ((exists r, out = Ok r /\ card_damaged r = true)
   <-> Exists (fun d => (90 <? d) = true) actual_colors_std)
  /\ (Exists (fun d => (90 <? d) = true) actual_colors_std ->
      out = Ok damaged_run)
  /\ (Forall (fun d => d = 90) actual_colors_std ->
      forall r, out = Ok r -> card_damaged r = false)
  /\ (In 91 actual_colors_std -> out = Ok damaged_run).
Proof.
  intros out.
  assert (Hex : Exists (fun d => (90 <? d) = true) actual_colors_std
                <-> existsb (fun s => 90 <? s) actual_colors_std = true).
  { rewrite Exists_exists, existsb_exists. reflexivity. }
  assert (Hdam : Exists (fun d => (90 <? d) = true) actual_colors_std ->
                 out = Ok damaged_run).
  { intros H. apply correct_samples_damaged. now apply Hex. }
  split; [split|split; [exact Hdam|split]].
  - intros (r & Hr & Hd). apply Hex.
    destruct (correct_samples_inv _ _ _ _ _ _ _ Hr)
      as [[H _]|[_ (ac & std & rotated & st & _ & _ & _ & ->)]];
      [exact H|discriminate Hd].
  - intros H. exists damaged_run. split; [now apply Hdam|reflexivity].
  - intros Hall r Hr.
    destruct (correct_samples_inv _ _ _ _ _ _ _ Hr)
      as [[H _]|[_ (ac & std & rotated & st & _ & _ & _ & ->)]];
      [|reflexivity].
    apply existsb_exists in H. destruct H as (d & Hin & Hd).
    rewrite Forall_forall in Hall. rewrite (Hall d Hin) in Hd.
    discriminate Hd.
  - intros Hin. apply Hdam. apply Exists_exists. exists 91.
    split; [exact Hin|reflexivity].
Qed.

(** C5.  A run that is not damaged reports the error percentage of its
    last fit and has written the corrected image if and only if that
    percentage is strictly below 50: at exactly 50 nothing is written, at
    49.99 the image is. *)
Theorem error_gate_strict (fuel : nat) (actual_colors : colors3)
    (actual_colors_std : list float) (ImageRGB : image)
    (study_file_name : string) (Acc : float) (r : run) :
  correct_samples fuel actual_colors actual_colors_std ImageRGB
    study_file_name Acc = Ok r ->
  card_damaged r = false ->
  (exists ac std st,
      resolve_orientation actual_colors actual_colors_std
        = Ok (ac, std, card_rotated r)
      /\ fit_loop fuel Acc ac 0 ac 0 = Ok st
      /\ correction_error r = error_percent (errors st)
      /\ written r =
           if correction_error r <? 50
           then Some (study_file_name,
                      cvtColor_swap
                        (correct_color np_power ImageRGB
                           (fst (fst (fit_params st)))
                           (snd (fst (fit_params st)))
                           (snd (fit_params st))))
           else None)
  /\ (written r <> None <-> (correction_error r <? 50) = true)
  /\ (correction_error r = 50 -> written r = None)
  /\ (correction_error r = 49.99 -> written r <> None).
Proof.
  intros Hr Hd.
  destruct (correct_samples_inv _ _ _ _ _ _ _ Hr)
    as [[_ ->]|[_ (ac & std & rotated & st & Hres & _ & Hfit & ->)]];
    [discriminate Hd|].
  cbn [written correction_error card_rotated].
  assert (Hw : emitted st ImageRGB study_file_name =
               if error_percent (errors st) <? 50
               then Some (study_file_name,
                          cvtColor_swap
                            (correct_color np_power ImageRGB
                               (fst (fst (fit_params st)))
                               (snd (fst (fit_params st)))
                               (snd (fit_params st))))
               else None).
  { unfold emitted.
    destruct (fit_params st) as [[color_alpha color_constant] color_gamma].
    reflexivity. }
  split; [|rewrite Hw; split; [|split]].
  - exists ac, std, st. repeat split; assumption.
  - destruct (error_percent (errors st) <? 50); split; congruence.
  - intros ->. reflexivity.
  - intros ->. discriminate.
Qed.

(** A call that returns had a card and a photo with pixels, sampled the
    card in RGB order and went on from the samples. *)
Lemma Color_correct_and_write_inv (fuel : nat) (card img : image)
    (study_file_name : string) (Acc : float) (r : run) :
  Color_correct_and_write fuel card img study_file_name Acc = Ok r ->
  cvtColor card = Ok (cvtColor_swap card)
  /\ cvtColor img = Ok (cvtColor_swap img)
  /\ exists actual_colors actual_colors_std,
       get_colorcard_colors (cvtColor_swap card) (6, 4)%nat
         = Ok (actual_colors, actual_colors_std)
       /\ correct_samples fuel actual_colors actual_colors_std
            (cvtColor_swap img) study_file_name Acc = Ok r.
Proof.
  unfold Color_correction.Color_correct_and_write. intros Hr.
  destruct (cvtColor card) as [CardRGB|e|] eqn:Hc; cbn [bind] in Hr;
    try discriminate.
  destruct (cvtColor img) as [ImageRGB|e|] eqn:Hi; cbn [bind] in Hr;
    try discriminate.
  destruct (cvtColor_inv _ _ Hc) as [-> _].
  destruct (cvtColor_inv _ _ Hi) as [-> _].
  split; [reflexivity|]. split; [reflexivity|].
  destruct (get_colorcard_colors (cvtColor_swap card) (6, 4)%nat)
    as [[ac std]|e|]; cbn [bind] in Hr; try discriminate.
  now exists ac, std.
Qed.

(** C10.  A call that reports a damaged card returns [(True, False, 0)]
    and has done nothing else: no file written, no fit, no random draw. *)
Theorem damaged_returns_at_once (fuel : nat) (card img : image)
    (study_file_name : string) (Acc : float) (r : run) :
  Color_correct_and_write fuel card img study_file_name Acc = Ok r ->
  card_damaged r = true ->
  card_rotated r = false
  /\ correction_error r = 0
  /\ written r = None
  /\ fit_calls r = 0%nat
  /\ rand_calls r = 0%nat.
Proof.
  intros Hr Hd.
  destruct (Color_correct_and_write_inv _ _ _ _ _ _ Hr)
    as (_ & _ & ac & std & _ & Hs).
  destruct (correct_samples_inv _ _ _ _ _ _ _ Hs)
    as [[_ ->]|[_ (ac' & std' & rotated & st & _ & _ & _ & ->)]];
    [|discriminate Hd].
  repeat split.
Qed.

End Properties.

(** A run whose samples are the reference table with 127.5 added to every
    red value: the identity fit leaves a mean error of 127.5, that is 50
    percent exactly, and nothing is written. *)
Lemma error_gate_strict_witness :
  let r := mk_run false false 50 None 1 0 in
  Toy.correct_samples 6 (Toy.red_shifted 127.5) (repeat 0 24) Toy.photo
    "out.png"%string 0.3 = Ok r
  /\ card_damaged r = false
  /\ written r = None.
Proof.
  intros r.
  assert (Hr : Toy.correct_samples 6 (Toy.red_shifted 127.5) (repeat 0 24)
                 Toy.photo "out.png"%string 0.3 = Ok r)
    by (vm_compute; reflexivity).
  split; [exact Hr|]. split; [reflexivity|].
  destruct (error_gate_strict Toy.np_power Toy.leastsq Toy.os_path_exists
              Toy.os_makedirs Toy.cv2_imwrite Toy.np_random_rand
              6 (Toy.red_shifted 127.5) (repeat 0 24) Toy.photo
              "out.png"%string 0.3 r Hr eq_refl) as (_ & _ & H50 & _).
  apply H50. reflexivity.
Defined.

(** The same with 127.47 added: 49.99 percent, and the photo, which the
    identity model leaves as it is, is written in BGR order into the
    directory that exists. *)
Example error_gate_accepts_49_99 :
  exists r,
    Toy.correct_samples 6 (Toy.red_shifted 127.47) (repeat 0 24) Toy.photo
      "out/img.png"%string 0.3 = Ok r
    /\ correction_error r = 49.99
    /\ written r = Some ("out/img.png"%string, cvtColor_swap Toy.photo).
Proof.
  eexists. split; [vm_compute; reflexivity|]. split; vm_compute; reflexivity.
Qed.

(** The checkerboard card is reported damaged, with no fuel for any fit. *)
Lemma damaged_returns_at_once_witness :
  Toy.Color_correct_and_write 0 Toy.checkerboard Toy.photo "out.png"%string 0.9
    = Ok damaged_run
  /\ card_rotated damaged_run = false
  /\ correction_error damaged_run = 0
  /\ written damaged_run = None
  /\ fit_calls damaged_run = 0%nat
  /\ rand_calls damaged_run = 0%nat.
Proof.
  assert (Hr : Toy.Color_correct_and_write 0 Toy.checkerboard Toy.photo
                 "out.png"%string 0.9 = Ok damaged_run)
    by (vm_compute; reflexivity).
  split; [exact Hr|].
  exact (damaged_returns_at_once Toy.np_power Toy.leastsq Toy.os_path_exists
           Toy.os_makedirs Toy.cv2_imwrite Toy.np_random_rand
           0 Toy.checkerboard Toy.photo "out.png"%string 0.9 damaged_run
           Hr eq_refl).
Defined.

(** High confidence and a poor fit: six fits, five draws, and with fuel
    for five passes only the loop is cut short. *)
Example fit_loop_six_passes :
  (exists st,
      Toy.fit_loop 6 0.9 (repeat (0, 0, 0) 24) 0 (repeat (0, 0, 0) 24) 0 = Ok st
      /\ iter st = 6%nat /\ draws st = 5%nat)
  /\ Toy.fit_loop 5 0.9 (repeat (0, 0, 0) 24) 0 (repeat (0, 0, 0) 24) 0
     = OutOfFuel.
Proof.
  split.
  - eexists. split; [vm_compute; reflexivity|]. split; reflexivity.
  - vm_compute. reflexivity.
Qed.

End Pipeline.

(* ================================================================== *)
(** * Sampling the patches of the card (colorbalance.py,
      [get_colorcard_colors]) *)
(* ================================================================== *)

Module Sampler.

Import colorbalance.
Open Scope float_scope.

Definition nan3 : vec3 := (nan, nan, nan).

(** A card of four rows and six columns, all black: with a 6x4 grid every
    sampling window has a half-width of [int(0.2)] = 0 pixels. *)
Definition tiny_card : image := mk_image 4 6 (repeat (x00, x00, x00) 24).

Definition empty_card : image := mk_image 0 0 [].

Lemma patch_stats_nil : patch_stats [] = (nan3, nan).
Proof. vm_compute. reflexivity. Qed.

Lemma slice_range_0 (a b : Z) : Py.slice_range a b 0 = [].
Proof.
  unfold Py.slice_range, Py.slice_index. simpl.
  destruct (a <? 0)%Z eqn:Ha, (b <? 0)%Z eqn:Hb;
    rewrite ?Z.max_r by lia; rewrite ?Nat.min_0_r; reflexivity.
Qed.

Lemma flat_map_nil {A B : Type} (f : A -> list B) (l : list A) :
  (forall a, f a = []) -> flat_map f l = [].
Proof.
  intros Hf. induction l as [|a l IH]; simpl; [reflexivity|].
  now rewrite Hf, IH.
Qed.

(** A card without rows or without columns has only empty windows. *)
Lemma window_empty_card (color_card : image) (r0 r1 c0 c1 : Z) :
  shape0 color_card = 0%nat \/ shape1 color_card = 0%nat ->
  window color_card r0 r1 c0 c1 = [].
Proof.
  unfold window. intros [H|H]; rewrite H, slice_range_0.
  - reflexivity.
  - now apply flat_map_nil.
Qed.

Section Grid.

Context {A : Type} (f : nat -> nat -> A).

(** The row-major table the two nested [for] loops fill. *)
Definition grid (rows cols : nat) : list A :=
  flat_map (fun row => map (f row) (seq 0 cols)) (seq 0 rows).

Lemma length_grid_from (cols rows s : nat) :
  length (flat_map (fun row => map (f row) (seq 0 cols)) (seq s rows))
  = (rows * cols)%nat.
Proof.
  revert s. induction rows as [|rows IH]; intros s; simpl; [reflexivity|].
  now rewrite length_app, length_map, length_seq, IH.
Qed.

Lemma nth_grid_from (d : A) (cols rows : nat) :
  forall s row col, (row < rows)%nat -> (col < cols)%nat ->
    nth (row * cols + col)
        (flat_map (fun row => map (f row) (seq 0 cols)) (seq s rows)) d
    = f (s + row)%nat col.
Proof.
  induction rows as [|rows IH]; intros s row col Hrow Hcol; [lia|].
  simpl. destruct row as [|row].
  - rewrite app_nth1 by now rewrite length_map, length_seq.
    simpl. rewrite Nat.add_0_r.
    rewrite (nth_indep _ d (f s 0%nat)) by now rewrite length_map, length_seq.
    now rewrite map_nth, seq_nth.
  - rewrite app_nth2 by (rewrite length_map, length_seq; simpl; lia).
    rewrite length_map, length_seq.
    replace (S row * cols + col - cols)%nat with (row * cols + col)%nat
      by (simpl; lia).
    rewrite IH by lia. f_equal. lia.
Qed.

Lemma nth_error_grid (rows cols row col : nat) :
  (row < rows)%nat -> (col < cols)%nat ->
  nth_error (grid rows cols) (row * cols + col) = Some (f row col).
Proof.
  intros Hrow Hcol. unfold grid.
  rewrite (nth_error_nth' _ (f row col))
    by (rewrite length_grid_from; nia).
  now rewrite nth_grid_from.
Qed.

Lemma map_constant_seq (g : nat -> A) (v : A) (n : nat) :
  (forall i, g i = v) -> forall t, map g (seq t n) = repeat v n.
Proof.
  intros Hg. induction n as [|n IH]; intros t; simpl; [reflexivity|].
  now rewrite Hg, IH.
Qed.

Lemma grid_constant (v : A) (rows cols : nat) :
  (forall row col, f row col = v) ->
  grid rows cols = repeat v (rows * cols).
Proof.
  intros Hf. unfold grid. generalize 0%nat at 2.
  induction rows as [|rows IH]; intros s; simpl; [reflexivity|].
  rewrite repeat_app, IH. f_equal.
  apply map_constant_seq. intros i. apply Hf.
Qed.

End Grid.

Lemma get_colorcard_colors_grid (color_card : image) (grid_cols grid_rows : nat) :
  grid_cols <> 0%nat -> grid_rows <> 0%nat ->
  get_colorcard_colors color_card (grid_cols, grid_rows)
  = Py.Ok (map fst (grid (sample_patch color_card grid_cols grid_rows)
                          grid_rows grid_cols),
           map snd (grid (sample_patch color_card grid_cols grid_rows)
                          grid_rows grid_cols)).
Proof.
  intros Hc Hr. unfold get_colorcard_colors.
  destruct (Nat.eqb_spec grid_rows 0); [contradiction|].
  destruct (Nat.eqb_spec grid_cols 0); [contradiction|].
  reflexivity.
Qed.

(** [int(0.2 * size / grid)]: half the height, or half the width, of the
    sampling windows. *)
Definition sample_size (size grid : nat) : Z :=
  Np.py_int (0.2 * Np.float_of_nat size / Np.float_of_nat grid).

Lemma slice_range_same (a : Z) (n : nat) : Py.slice_range a a n = [].
Proof. unfold Py.slice_range. now rewrite Nat.sub_diag. Qed.

Lemma window_no_rows (color_card : image) (r c0 c1 : Z) :
  window color_card r r c0 c1 = [].
Proof. unfold window. now rewrite slice_range_same. Qed.

Lemma window_no_cols (color_card : image) (r0 r1 c : Z) :
  window color_card r0 r1 c c = [].
Proof.
  unfold window. rewrite slice_range_same. now apply flat_map_nil.
Qed.

(** A card without pixels, or one so small that half the window height or
    width is [int(0.2 * size / grid) = 0], has only empty windows. *)
Lemma patch_window_degenerate (color_card : image) (grid_cols grid_rows : nat)
    (row col : nat) :
  shape0 color_card = 0%nat \/ shape1 color_card = 0%nat
  \/ sample_size (shape0 color_card) grid_rows = 0%Z
  \/ sample_size (shape1 color_card) grid_cols = 0%Z ->
  patch_window color_card grid_cols grid_rows row col = [].
Proof.
  intros [H|[H|[H|H]]].
  - apply window_empty_card. now left.
  - apply window_empty_card. now right.
  - unfold patch_window. unfold sample_size in H. rewrite H.
    rewrite Z.sub_0_r, Z.add_0_r. apply window_no_rows.
  - unfold patch_window. unfold sample_size in H. rewrite H.
    rewrite Z.sub_0_r, Z.add_0_r. apply window_no_cols.
Qed.

(** C3, as amended.  A grid without rows or without columns raises
    [ZeroDivisionError].  With a grid of at least one row and one column
    the sampler never raises: it returns one color and one dispersion per
    grid cell, patch [row * grid_cols + col] holding the statistics of the
    window of that cell.  A window of zero pixels is not an error: its
    patch silently gets NaN for its three medians and for its dispersion.
    A card without rows or without columns, and a card so small that
    [int(0.2 * size / grid)] is 0 for its height or its width, yield NaN
    everywhere. *)
Theorem get_colorcard_colors_degenerate (color_card : image)
    (grid_cols grid_rows : nat) :
  (grid_rows = 0%nat \/ grid_cols = 0%nat ->
   get_colorcard_colors color_card (grid_cols, grid_rows)
   = Py.Raise Py.ZeroDivisionError)
  /\ (grid_cols <> 0%nat -> grid_rows <> 0%nat ->
      exists colors colors_std,
        get_colorcard_colors color_card (grid_cols, grid_rows)
          = Py.Ok (colors, colors_std)
        /\ length colors = (grid_rows * grid_cols)%nat
        /\ length colors_std = (grid_rows * grid_cols)%nat
        /\ (forall row col, (row < grid_rows)%nat -> (col < grid_cols)%nat ->
              let win := patch_window color_card grid_cols grid_rows row col in
              nth_error colors (row * grid_cols + col)
                = Some (fst (patch_stats win))
              /\ nth_error colors_std (row * grid_cols + col)
                 = Some (snd (patch_stats win))
              /\ (win = [] ->
                  nth_error colors (row * grid_cols + col) = Some nan3
                  /\ nth_error colors_std (row * grid_cols + col) = Some nan))
        /\ (shape0 color_card = 0%nat \/ shape1 color_card = 0%nat
            \/ sample_size (shape0 color_card) grid_rows = 0%Z
            \/ sample_size (shape1 color_card) grid_cols = 0%Z ->
            colors = repeat nan3 (grid_rows * grid_cols)
            /\ colors_std = repeat nan (grid_rows * grid_cols))).
Proof.
  split.
  { unfold get_colorcard_colors. intros [-> | ->]; [reflexivity|].
    now destruct (grid_rows =? 0)%nat. }
  intros Hc Hr. eexists _, _.
  split; [now apply get_colorcard_colors_grid|].
  split; [now rewrite length_map; apply length_grid_from|].
  split; [now rewrite length_map; apply length_grid_from|].
  split.
  - intros row col Hrow Hcol win.
    assert (H1 : nth_error
                   (map fst (grid (sample_patch color_card grid_cols grid_rows)
                                  grid_rows grid_cols))
                   (row * grid_cols + col) = Some (fst (patch_stats win)))
      by (rewrite nth_error_map, nth_error_grid by assumption; reflexivity).
    assert (H2 : nth_error
                   (map snd (grid (sample_patch color_card grid_cols grid_rows)
                                  grid_rows grid_cols))
                   (row * grid_cols + col) = Some (snd (patch_stats win)))
      by (rewrite nth_error_map, nth_error_grid by assumption; reflexivity).
    split; [exact H1|]. split; [exact H2|].
    intros Hwin. rewrite H1, H2, Hwin, patch_stats_nil. split; reflexivity.
  - intros Hdeg.
    rewrite (grid_constant _ (nan3, nan)).
    + now rewrite !map_repeat.
    + intros row col. unfold sample_patch.
      now rewrite patch_window_degenerate, patch_stats_nil.
Qed.

(** The 6x4 grid on the tiny card: half the window height is
    [int(0.2 * 4 / 4) = 0], every window is empty and every statistic is
    NaN; without grid rows the call raises. *)
Lemma get_colorcard_colors_degenerate_witness :
  sample_size (shape0 tiny_card) 4 = 0%Z
  /\ get_colorcard_colors tiny_card (6, 4)%nat
     = Py.Ok (repeat nan3 24, repeat nan 24)
  /\ get_colorcard_colors tiny_card (6, 0)%nat = Py.Raise Py.ZeroDivisionError.
Proof.
  assert (Hs : sample_size (shape0 tiny_card) 4 = 0%Z) by reflexivity.
  split; [exact Hs|].
  destruct (get_colorcard_colors_degenerate tiny_card 6 4) as [_ Hok].
  destruct (get_colorcard_colors_degenerate tiny_card 6 0) as [Hzero _].
  split; [|apply Hzero; now left].
  destruct Hok as (colors & colors_std & -> & _ & _ & _ & Hnan);
    try discriminate.
  destruct Hnan as [-> ->]; [|reflexivity].
  right. right. left. exact Hs.
Defined.

(** C3 as stated fails.  No error is raised on a card whose windows all
    collapse to zero pixels, nor on a card without any pixel: both calls
    return, with NaN for every color and every dispersion. *)
Lemma get_colorcard_colors_counterexample :
  get_colorcard_colors tiny_card (6, 4)%nat
    = Py.Ok (repeat nan3 24, repeat nan 24)
  /\ patch_window tiny_card 6 4 0 0 = []
  /\ get_colorcard_colors empty_card (6, 4)%nat
     = Py.Ok (repeat nan3 24, repeat nan 24).
Proof. repeat split; vm_compute; reflexivity. Qed.

End Sampler.

(* ================================================================== *)
(** * What the template search returns (Detect_colorChecker.py) *)
(* ================================================================== *)

Module Search.

Import Detect_colorChecker.
Open Scope float_scope.
Open Scope py_scope.

Lemma argmax_from_spec (d : float) (l seen : list float) :
  forall best idx,
    (idx < length seen)%nat ->
    nth idx seen d = best ->
    Forall (fun y => (best <? y) = false) seen ->
    let k := Np.argmax_from best idx (length seen) l in
    (k < length (seen ++ l))%nat
    /\ Forall (fun y => (nth k (seen ++ l) d <? y) = false) (seen ++ l).
Proof.
  revert seen. induction l as [|x l IH]; intros seen best idx Hidx Hnth Hall.
  - simpl. rewrite app_nil_r. split; [exact Hidx|]. now rewrite Hnth.
  - cbn [Np.argmax_from].
    assert (Hlen : length (seen ++ [x]) = S (length seen))
      by (rewrite length_app; simpl; lia).
    destruct (is_nan best) eqn:Hnan.
    + cbv zeta. split; [rewrite length_app; simpl; lia|].
      rewrite app_nth1 by exact Hidx. rewrite Hnth.
      apply Forall_forall. intros y _. now apply FloatOrder.nan_not_below.
    + destruct ((best <? x) || is_nan x) eqn:Hup.
      * specialize (IH (seen ++ [x]) x (length seen)).
        rewrite Hlen, <- app_assoc in IH. apply IH.
        -- lia.
        -- now rewrite app_nth2, Nat.sub_diag by lia.
        -- apply Forall_app. split.
           ++ apply orb_true_iff in Hup. destruct Hup as [Hup|Hup].
              ** eapply Forall_impl; [|exact Hall]. intros y Hy.
                 now apply (FloatOrder.ltb_not_above best).
              ** apply Forall_forall. intros y _.
                 now apply FloatOrder.nan_not_below.
           ++ constructor; [apply FloatOrder.ltb_irrefl|constructor].
      * apply orb_false_iff in Hup. destruct Hup as [Hup _].
        specialize (IH (seen ++ [x]) best idx).
        rewrite Hlen, <- app_assoc in IH. apply IH.
        -- lia.
        -- now rewrite app_nth1 by exact Hidx.
        -- apply Forall_app. split; [exact Hall|].
           constructor; [exact Hup|constructor].
Qed.

(** [np.argmax] points into the array, at an element that no element
    exceeds. *)
Lemma argmax_spec (d x : float) (l : list float) :
  (Np.argmax (x :: l) < length (x :: l))%nat
  /\ Forall (fun y => (nth (Np.argmax (x :: l)) (x :: l) d <? y) = false)
            (x :: l).
Proof.
  apply (argmax_from_spec d l [x] x 0%nat).
  - simpl. lia.
  - reflexivity.
  - constructor; [apply FloatOrder.ltb_irrefl|constructor].
Qed.

(** When [round] returns on a pixel coordinate, the pixel is the rounded
    coordinate. *)
Lemma rounded_pixel_inv (x : float) (z : Z) :
  (v <- Np.builtin_round x ;; Ok (Np.py_int v)) = Ok z ->
  z = Np.py_int (Np.round x).
Proof.
  unfold Np.builtin_round.
  destruct (is_nan x); [discriminate|].
  destruct (is_infinity x); [discriminate|].
  cbn [bind]. now intros [= <-].
Qed.

Lemma Parallel_inv {A B : Type} (f : A -> result B) (l : list A) :
  forall bs, Parallel f l = Ok bs -> Forall2 (fun a b => f a = Ok b) l bs.
Proof.
  induction l as [|a l IH]; simpl; intros bs H.
  - injection H as <-. constructor.
  - destruct (f a) as [b|e|] eqn:Hb; cbn [bind] in H; try discriminate.
    destruct (Parallel f l) as [bs'|e|]; cbn [bind] in H; try discriminate.
    injection H as <-. constructor; [exact Hb|now apply IH].
Qed.

Lemma Parallel_total {A B : Type} (f : A -> result B) (g : A -> B)
    (l : list A) :
  (forall a, f a = Ok (g a)) -> Parallel f l = Ok (map g l).
Proof.
  intros Hf. induction l as [|a l IH]; simpl; [reflexivity|].
  now rewrite Hf, IH.
Qed.

Lemma unzip_results_inv (results : list (option found_t)) :
  forall fs, unzip_results results = Ok fs -> results = map Some fs.
Proof.
  induction results as [|[f|] results IH]; simpl; intros fs H.
  - now injection H as <-.
  - destruct (unzip_results results) as [fs'|e|]; cbn [bind] in H;
      try discriminate.
    injection H as <-. simpl. f_equal. now apply IH.
  - discriminate.
Qed.

Section Properties.

Variable gray_img : Type.
Variable color_img : Type.
Variable shape : gray_img -> Z * Z.
Variable ndimage_rotate : gray_img -> Py.num -> gray_img.
Variable ndimage_rotate_color : color_img -> Py.num -> color_img.
Variable imutils_resize : gray_img -> Z -> gray_img.
Variable matchTemplate : gray_img -> gray_img -> float * (Z * Z).
Variable cvtColor_BGR2GRAY : color_img -> gray_img.
Variable Canny : gray_img -> float -> float -> gray_img.
Variable crop : color_img -> Z -> Z -> Z -> Z -> color_img.

Local Abbreviation resized_at := (resized_at gray_img shape imutils_resize).
Local Abbreviation too_small := (too_small gray_img shape).
Local Abbreviation scale_loop :=
  (scale_loop gray_img shape imutils_resize matchTemplate).
Local Abbreviation rotated := (rotated gray_img ndimage_rotate).
Local Abbreviation paralell_search_trace :=
  (paralell_search_trace gray_img shape ndimage_rotate imutils_resize
     matchTemplate).
Local Abbreviation paralell_search :=
  (paralell_search gray_img shape ndimage_rotate imutils_resize matchTemplate).
Local Abbreviation detect_card :=
  (detect_card gray_img color_img shape ndimage_rotate ndimage_rotate_color
     imutils_resize matchTemplate cvtColor_BGR2GRAY Canny crop).

(** The ratio [r] kept with a match at [scale2]. *)
Definition ratio (gray gray_rot : gray_img) (scale2 : float) : float :=
  Np.float_of_Z (snd (shape gray_rot))
  / Np.float_of_Z (snd (shape (resized_at gray gray_rot scale2))).

(** [found] is the best of the matches at the scales [seen]: nothing when
    there are none, else the match of one of them, which none exceeds. *)
Definition best_of (gray gray_rot card : gray_img)
    (found : option found_t) (seen : list float) : Prop :=
  match found with
  | None => seen = []
  | Some (maxVal, maxLoc, r, scale2) =>
      In scale2 seen
      /\ matchTemplate (resized_at gray gray_rot scale2) card = (maxVal, maxLoc)
      /\ r = ratio gray gray_rot scale2
      /\ Forall (fun s =>
                   (maxVal <? fst (matchTemplate (resized_at gray gray_rot s)
                                     card)) = false) seen
  end.

Lemma best_of_step (gray gray_rot card : gray_img)
    (found : option found_t) (seen : list float) (scale2 : float)
    (maxVal : float) (maxLoc : Z * Z) :
  best_of gray gray_rot card found seen ->
  matchTemplate (resized_at gray gray_rot scale2) card = (maxVal, maxLoc) ->
  best_of gray gray_rot card
    (if improves found maxVal
     then Some (maxVal, maxLoc, ratio gray gray_rot scale2, scale2)
     else found)
    (seen ++ [scale2]).
Proof.
  intros Hbest Hm.
  destruct found as [[[[best loc] r] s]|]; simpl in *.
  - destruct Hbest as (Hin & Hs & Hr & Hall).
    destruct (best <? maxVal) eqn:Hup.
    + split; [apply in_or_app; right; now left|].
      split; [exact Hm|]. split; [reflexivity|].
      apply Forall_app. split.
      * eapply Forall_impl; [|exact Hall]. intros s' Hs'.
        now apply (FloatOrder.ltb_not_above best).
      * constructor; [|constructor]. rewrite Hm. apply FloatOrder.ltb_irrefl.
    + split; [apply in_or_app; now left|].
      split; [exact Hs|]. split; [exact Hr|].
      apply Forall_app. split; [exact Hall|].
      constructor; [|constructor]. now rewrite Hm.
  - subst seen. split; [now left|]. split; [exact Hm|].
    split; [reflexivity|].
    constructor; [|constructor]. rewrite Hm. apply FloatOrder.ltb_irrefl.
Qed.

Lemma scale_loop_best (gray gray_rot card : gray_img) (H_card W_card : Z)
    (scales : list float) :
  forall found seen res trace,
    best_of gray gray_rot card found seen ->
    scale_loop gray gray_rot card H_card W_card found scales = Ok (res, trace) ->
    best_of gray gray_rot card res (seen ++ trace)
    /\ exists rest, scales = trace ++ rest.
Proof.
  induction scales as [|s scales IH]; intros found seen res trace Hbest H;
    simpl in H.
  - injection H as <- <-. rewrite app_nil_r. split; [exact Hbest|].
    now exists [].
  - destruct (snd (shape (resized_at gray gray_rot s)) =? 0)%Z;
      [discriminate|].
    destruct (too_small (resized_at gray gray_rot s) H_card W_card).
    + injection H as <- <-. rewrite app_nil_r. split; [exact Hbest|].
      now exists (s :: scales).
    + destruct (matchTemplate (resized_at gray gray_rot s) card)
        as [maxVal maxLoc] eqn:Hm.
      pose proof (best_of_step gray gray_rot card found seen s maxVal maxLoc
                    Hbest Hm) as Hstep.
      unfold ratio in Hstep.
      match type of H with
      | context [Detect_colorChecker.scale_loop _ _ _ _ _ _ _ _ _ ?f scales] =>
          destruct (Detect_colorChecker.scale_loop gray_img shape imutils_resize
                      matchTemplate gray gray_rot card H_card W_card f scales)
            as [[res' tr]|e|] eqn:Hloop; cbn [bind] in H; try discriminate
      end.
      injection H as <- <-.
      destruct (IH _ _ _ _ Hstep Hloop) as [Hres [rest ->]].
      rewrite <- app_assoc in Hres. split; [exact Hres|].
      now exists rest.
Qed.

(** The search of one angle.  The template is matched on a first part of
    [search_scale] (the scales of the trace).  If that part is empty the
    search returns [None]; else it returns the match at one of these
    scales, with the ratio of that scale, and no scale of the trace has a
    strictly higher score. *)
Theorem paralell_search_best (search_scale : list float) (degree : Py.num)
    (gray card : gray_img) (H_card W_card : Z)
    (res : option found_t) (trace : list float) :
  paralell_search_trace search_scale degree gray H_card W_card card
    = Ok (res, trace) ->
  paralell_search search_scale degree gray H_card W_card card = Ok res
  /\ (exists rest, search_scale = trace ++ rest)
  /\ best_of gray (rotated gray degree) card res trace.
Proof.
  intros H. split.
  - unfold Detect_colorChecker.paralell_search. now rewrite H.
  - unfold Detect_colorChecker.paralell_search_trace in H.
    destruct (scale_loop_best gray (rotated gray degree) card H_card W_card
                search_scale None [] res trace eq_refl H) as [Hbest Hrest].
    split; [exact Hrest|exact Hbest].
Qed.

(** With no angle to search [detect_card] raises [ValueError] (nothing to
    unpack); with angles but no scale every search returns [None] and it
    raises [TypeError]. *)
Theorem detect_card_empty_search (img : color_img) (card : gray_img)
    (search_scale : list float) (degree : Py.num)
    (search_degree : list Py.num) :
  detect_card img card search_scale [] = Raise ValueError
  /\ detect_card img card [] (degree :: search_degree) = Raise TypeError.
Proof.
  unfold Detect_colorChecker.detect_card.
  destruct (shape card) as [H_card W_card]. split; [reflexivity|].
  rewrite (Parallel_total _ (fun _ => None)) by reflexivity.
  reflexivity.
Qed.

(** The search returns [None] exactly when the template was matched at no
    scale: there is no scale, or the first one is already too small. *)
Theorem paralell_search_none_iff (search_scale : list float)
    (degree : Py.num) (gray card : gray_img) (H_card W_card : Z) :
  (forall s, In s search_scale ->
             (snd (shape (resized_at gray (rotated gray degree) s)) =? 0)%Z
             = false) ->
  (paralell_search search_scale degree gray H_card W_card card = Ok None
   <-> search_scale = []
       \/ exists s rest,
            search_scale = s :: rest
            /\ too_small (resized_at gray (rotated gray degree) s)
                         H_card W_card = true).
Proof.
  intros Hc. unfold Detect_colorChecker.paralell_search. split.
  - destruct (paralell_search_trace search_scale degree gray H_card W_card card)
      as [[res trace]|e|] eqn:Htrace; cbn [bind]; try discriminate.
    intros H. injection H as ->.
    unfold Detect_colorChecker.paralell_search_trace in Htrace.
    destruct search_scale as [|s rest]; [now left|]. right.
    exists s, rest. split; [reflexivity|].
    simpl in Htrace. rewrite (Hc s (or_introl eq_refl)) in Htrace.
    destruct (too_small (resized_at gray (rotated gray degree) s)
                H_card W_card); [reflexivity|].
    destruct (matchTemplate (resized_at gray (rotated gray degree) s) card)
      as [maxVal maxLoc] eqn:Hm.
    simpl in Htrace.
    match type of Htrace with
    | context [Detect_colorChecker.scale_loop _ _ _ _ _ _ _ _ _ ?f rest] =>
        destruct (Detect_colorChecker.scale_loop gray_img shape imutils_resize
                    matchTemplate gray (rotated gray degree) card H_card W_card
                    f rest)
          as [[res' tr]|e|] eqn:Hloop; cbn [bind] in Htrace;
          try discriminate
    end.
    injection Htrace as Hnone _. subst res'.
    pose proof (best_of_step gray (rotated gray degree) card None [] s
                  maxVal maxLoc eq_refl Hm) as Hstep.
    destruct (scale_loop_best gray (rotated gray degree) card H_card W_card
                rest _ _ None tr Hstep Hloop) as [Hbest _].
    discriminate Hbest.
  - unfold Detect_colorChecker.paralell_search_trace.
    intros [->|(s & rest & -> & Hs)]; [reflexivity|].
    simpl. now rewrite (Hc s (or_introl eq_refl)), Hs.
Qed.

Lemma Forall2_nth_error {A B : Type} (R : A -> B -> Prop) (l : list A)
    (l' : list B) :
  Forall2 R l l' ->
  forall i b, nth_error l' i = Some b ->
    exists a, nth_error l i = Some a /\ R a b.
Proof.
  induction 1 as [|a b l l' Hab _ IH]; intros i y Hi.
  - destruct i; discriminate.
  - destruct i as [|i]; simpl in Hi.
    + injection Hi as <-. now exists a.
    + now apply IH.
Qed.

(** When [detect_card] returns, every angle had a match, the confidence
    and the scale returned are those of one angle's match, no angle has a
    strictly higher score, and the picture returned is the photo, rotated
    by that angle unless the angle is the integer 0, cropped at the place
    of the match scaled back by its ratio. *)
Theorem detect_card_reports_best (img : color_img) (card : gray_img)
    (search_scale : list float) (search_degree : list Py.num)
    (output_img : color_img) (maxVal SCALE : float) :
  detect_card img card search_scale search_degree
    = Ok (output_img, maxVal, SCALE) ->
  let edged := Canny (cvtColor_BGR2GRAY img) 40 50 in
  let H_card := fst (shape card) in
  let W_card := snd (shape card) in
  let search degree :=
    paralell_search search_scale degree edged H_card W_card card in
  (forall degree, In degree search_degree ->
     exists f, search degree = Ok (Some f) /\ (maxVal <? maxVal_of f) = false)
  /\ exists ind deg maxLoc r,
       nth_error search_degree ind = Some deg
       /\ search deg = Ok (Some (maxVal, maxLoc, r, SCALE))
       /\ let px z := Np.py_int (Np.round (Np.float_of_Z z * r)) in
          output_img =
            crop (if Py.is_not_0 deg then ndimage_rotate_color img deg else img)
                 (px (snd maxLoc)) (px (snd maxLoc + H_card)%Z)
                 (px (fst maxLoc)) (px (fst maxLoc + W_card)%Z).
Proof.
  unfold Detect_colorChecker.detect_card.
  destruct (shape card) as [H W]. intros H0. cbv zeta. cbn [fst snd].
  set (edged := Canny (cvtColor_BGR2GRAY img) 40 50) in *.
  set (search := fun degree : Py.num =>
                   paralell_search search_scale degree edged H W card) in *.
  destruct (Parallel search search_degree) as [results|e|] eqn:Hpar;
    cbn [bind] in H0; try discriminate.
  destruct (unzip_results results) as [fs|e|] eqn:Hzip;
    cbn [bind] in H0; try discriminate.
  apply Parallel_inv in Hpar. apply unzip_results_inv in Hzip. subst results.
  destruct fs as [|f0 fs]; [discriminate|].
  destruct (argmax_spec 0 (maxVal_of f0) (map maxVal_of fs)) as [Hlt Hmax].
  change (maxVal_of f0 :: map maxVal_of fs) with (map maxVal_of (f0 :: fs))
    in Hlt, Hmax, H0.
  set (ind := Np.argmax (map maxVal_of (f0 :: fs))) in *.
  rewrite length_map in Hlt.
  destruct (nth ind (f0 :: fs) f0) as [[[v loc] r] sc] eqn:Hnth.
  destruct (v0 <- Np.builtin_round (Np.float_of_Z (fst loc) * r) ;;
            Ok (Np.py_int v0)) as [startX|e|] eqn:HsX;
    cbn [bind] in H0; try discriminate.
  destruct (v0 <- Np.builtin_round (Np.float_of_Z (snd loc) * r) ;;
            Ok (Np.py_int v0)) as [startY|e|] eqn:HsY;
    cbn [bind] in H0; try discriminate.
  destruct (v0 <- Np.builtin_round (Np.float_of_Z (fst loc + W) * r) ;;
            Ok (Np.py_int v0)) as [endX|e|] eqn:HeX;
    cbn [bind] in H0; try discriminate.
  destruct (v0 <- Np.builtin_round (Np.float_of_Z (snd loc + H) * r) ;;
            Ok (Np.py_int v0)) as [endY|e|] eqn:HeY;
    cbn [bind] in H0; try discriminate.
  apply rounded_pixel_inv in HsX, HsY, HeX, HeY. subst startX startY endX endY.
  injection H0 as <- <- <-.
  assert (Hv : nth ind (map maxVal_of (f0 :: fs)) 0 = v).
  { rewrite (nth_indep _ 0 (maxVal_of f0)) by now rewrite length_map.
    now rewrite map_nth, Hnth. }
  rewrite Hv in Hmax.
  split.
  - intros degree Hin.
    destruct (In_nth_error _ _ Hin) as [i Hi].
    assert (Hf : exists f, search degree = Ok (Some f) /\ In f (f0 :: fs)).
    { clear - Hpar Hi. revert i Hi.
      remember (map Some (f0 :: fs)) as rs eqn:Hrs. revert Hrs.
      generalize (f0 :: fs) as gs.
      induction Hpar as [|a b l l' Hab _ IH]; intros gs Hrs i Hi.
      - destruct i; discriminate.
      - destruct gs as [|g gs]; [discriminate|].
        injection Hrs as -> ->.
        destruct i as [|i]; simpl in Hi.
        + injection Hi as <-. exists g. split; [exact Hab|now left].
        + destruct (IH gs eq_refl i Hi) as (f & Hf & Hin).
          exists f. split; [exact Hf|now right]. }
    destruct Hf as (f & Hf & Hinf). exists f. split; [exact Hf|].
    rewrite Forall_forall in Hmax. apply Hmax. now apply in_map.
  - assert (Hres : nth_error (map Some (f0 :: fs)) ind
                   = Some (Some (v, loc, r, sc))).
    { rewrite nth_error_map, (nth_error_nth' _ f0) by exact Hlt.
      now rewrite Hnth. }
    destruct (Forall2_nth_error _ _ _ Hpar _ _ Hres) as (deg & Hdeg & Hs).
    exists ind, deg, loc, r. split; [exact Hdeg|]. split; [exact Hs|].
    cbv zeta. now rewrite (nth_error_nth _ _ _ Hdeg).
Qed.

End Properties.

(** A toy image library in which the angle matters: an image is its shape,
    a rotation by anything but the integer 0 adds twenty rows, resizing
    keeps the aspect ratio, and the score of a match is the number of rows
    plus the number of columns of the resized image. *)
Module Toy.

Definition gray_img : Set := (Z * Z)%type.
Definition color_img : Set := (Z * Z)%type.
Definition shape (g : gray_img) : Z * Z := g.
Definition ndimage_rotate (g : gray_img) (_ : Py.num) : gray_img :=
  ((fst g + 20)%Z, snd g).
Definition ndimage_rotate_color (c : color_img) (_ : Py.num) : color_img :=
  ((fst c + 20)%Z, snd c).
Definition imutils_resize (g : gray_img) (width : Z) : gray_img :=
  ((fst g * width / snd g)%Z, width).
Definition matchTemplate (resized _card : gray_img) : float * (Z * Z) :=
  (Np.float_of_Z (fst resized + snd resized), (3%Z, 4%Z)).
Definition cvtColor_BGR2GRAY (c : color_img) : gray_img := c.
Definition Canny (g : gray_img) (_ _ : float) : gray_img := g.
Definition crop (c : color_img) (startY endY startX endX : Z) : color_img :=
  ((endY - startY)%Z, (endX - startX)%Z).

Definition paralell_search_trace :=
  Detect_colorChecker.paralell_search_trace gray_img shape ndimage_rotate
    imutils_resize matchTemplate.
Definition paralell_search :=
  Detect_colorChecker.paralell_search gray_img shape ndimage_rotate
    imutils_resize matchTemplate.
Definition detect_card :=
  Detect_colorChecker.detect_card gray_img color_img shape ndimage_rotate
    ndimage_rotate_color imutils_resize matchTemplate cvtColor_BGR2GRAY Canny
    crop.

End Toy.

(** Scales 1, 2, 0.5, 3 on a 100x100 edge map with a 60x60 template: the
    template is matched at 1 and 2, the better match is kept, and the
    search stops at 0.5. *)
Lemma paralell_search_best_witness :
  Toy.paralell_search_trace [1; 2; 0.5; 3] (Py.Int 0) (100, 100)%Z 60 60
    (60, 60)%Z = Ok (Some (400, (3, 4)%Z, 0.5, 2), [1; 2])
  /\ Toy.paralell_search [1; 2; 0.5; 3] (Py.Int 0) (100, 100)%Z 60 60
       (60, 60)%Z = Ok (Some (400, (3, 4)%Z, 0.5, 2)).
Proof.
  assert (H : Toy.paralell_search_trace [1; 2; 0.5; 3] (Py.Int 0)
                (100, 100)%Z 60 60 (60, 60)%Z
              = Ok (Some (400, (3, 4)%Z, 0.5, 2), [1; 2]))
    by (vm_compute; reflexivity).
  split; [exact H|].
  exact (proj1 (paralell_search_best Toy.gray_img Toy.shape Toy.ndimage_rotate
                  Toy.imutils_resize Toy.matchTemplate [1; 2; 0.5; 3]
                  (Py.Int 0) (100, 100)%Z (60, 60)%Z 60 60 _ _ H)).
Defined.

(** A first scale of 0.5 is too small for the template: the search of the
    angle has nothing to return, whatever follows. *)
Lemma paralell_search_none_iff_witness :
  Toy.paralell_search [0.5; 1] (Py.Int 0) (100, 100)%Z 60 60 (60, 60)%Z
  = Ok None.
Proof.
  apply (paralell_search_none_iff Toy.gray_img Toy.shape Toy.ndimage_rotate
           Toy.imutils_resize Toy.matchTemplate [0.5; 1] (Py.Int 0)
           (100, 100)%Z (60, 60)%Z 60 60).
  - intros s [<-|[<-|[]]]; reflexivity.
  - right. exists 0.5, [1]. split; reflexivity.
Defined.

(** Two angles and two scales: the second angle at scale 2 scores 440, the
    best of the four matches, and its match is the one reported. *)
Lemma detect_card_reports_best_witness :
  Toy.detect_card (100, 100)%Z (60, 60)%Z [1; 2] [Py.Int 0; Py.Float 2.5]
    = Ok ((30, 30)%Z, 440, 2)
  /\ exists ind deg maxLoc r,
       nth_error [Py.Int 0; Py.Float 2.5] ind = Some deg
       /\ Toy.paralell_search [1; 2] deg (100, 100)%Z 60 60 (60, 60)%Z
          = Ok (Some (440, maxLoc, r, 2)).
Proof.
  assert (H : Toy.detect_card (100, 100)%Z (60, 60)%Z [1; 2]
                [Py.Int 0; Py.Float 2.5] = Ok ((30, 30)%Z, 440, 2))
    by (vm_compute; reflexivity).
  split; [exact H|].
  destruct (detect_card_reports_best Toy.gray_img Toy.color_img Toy.shape
              Toy.ndimage_rotate Toy.ndimage_rotate_color Toy.imutils_resize
              Toy.matchTemplate Toy.cvtColor_BGR2GRAY Toy.Canny Toy.crop
              (100, 100)%Z (60, 60)%Z [1; 2] [Py.Int 0; Py.Float 2.5]
              _ _ _ H) as (_ & ind & deg & maxLoc & r & Hdeg & Hs & _).
  exists ind, deg, maxLoc, r. split; [exact Hdeg|exact Hs].
Defined.

End Search.

(* ================================================================== *)
(** * Signs and sizes in the color model (colorbalance.py) *)
(* ================================================================== *)

Module Fit.

Import colorbalance.
Open Scope float_scope.

Lemma mul_255_not_neg (y : float) : (y <? 0) = false -> (255 * y <? 0) = false.
Proof.
  rewrite !ltb_spec, mul_spec.
  change (Prim2SF 0) with (S754_zero false).
  set (c := Prim2SF 255). vm_compute in c. subst c.
  unfold SF64mul, SFmul.
  destruct (Prim2SF y) as [s|s| |s m e]; try destruct s; try reflexivity;
    try discriminate.
  intros _. apply FloatOrder.binary_round_aux_not_neg.
Qed.

Lemma slice_index_le (x : Z) (n : nat) : (Py.slice_index x n <= n)%nat.
Proof.
  unfold Py.slice_index. destruct (x <? 0)%Z eqn:E; [|lia].
  apply Z.ltb_lt in E. lia.
Qed.

(** A slice selects indices of the sequence only. *)
Lemma slice_range_bound (a b : Z) (n i : nat) :
  In i (Py.slice_range a b n) -> (i < n)%nat.
Proof.
  unfold Py.slice_range. rewrite in_seq.
  pose proof (slice_index_le b n). lia.
Qed.

Section Properties.

Variable np_power : float -> float -> float.
Variable leastsq : (params -> list float) -> params -> params.

(** The three values raised to the gamma exponents for one column. *)
Definition bases (color_alpha : mat3) (color_constant : vec3) (c : vec3)
    : vec3 :=
  let '(r0, r1, r2) := color_alpha in
  let '(b0, b1, b2) := color_constant in
  (Np.clip_min (dot_row r0 c b0) 0 / 255,
   Np.clip_min (dot_row r1 c b1) 0 / 255,
   Np.clip_min (dot_row r2 c b2) 0 / 255).

Definition not_negative3 (v : vec3) : Prop :=
  let '(x0, x1, x2) := v in
  (x0 <? 0) = false /\ (x1 <? 0) = false /\ (x2 <? 0) = false.

(** The model returns one column per input column.  In each, every
    channel is 255 times a power whose base is not negative (it is zero,
    positive or NaN): the mixed colors are clipped at zero before the
    exponent is applied.  If powers of such bases are not negative either,
    no corrected value is negative. *)
Theorem gamma_model_bases_not_negative (colors : colors3)
    (color_alpha : mat3) (color_constant : vec3) (g0 g1 g2 : float) :
  Forall2
    (fun c out =>
       let '(x0, x1, x2) := bases color_alpha color_constant c in
       out = (255 * np_power x0 g0, 255 * np_power x1 g1, 255 * np_power x2 g2)
       /\ not_negative3 (x0, x1, x2)
       /\ ((forall x g, (x <? 0) = false -> (np_power x g <? 0) = false) ->
           not_negative3 out))
    colors
    (_gamma_correction_model np_power colors color_alpha color_constant
       (g0, g1, g2)).
Proof.
  unfold _gamma_correction_model.
  induction colors as [|c colors IH]; simpl; constructor; [|exact IH].
  unfold bases, gamma_correct_column.
  destruct color_alpha as [[r0 r1] r2], color_constant as [[b0 b1] b2].
  assert (H0 := FloatOrder.div_255_not_neg _
                  (FloatOrder.clip_min_0_not_neg (dot_row r0 c b0))).
  assert (H1 := FloatOrder.div_255_not_neg _
                  (FloatOrder.clip_min_0_not_neg (dot_row r1 c b1))).
  assert (H2 := FloatOrder.div_255_not_neg _
                  (FloatOrder.clip_min_0_not_neg (dot_row r2 c b2))).
  split; [reflexivity|]. split; [now repeat split|].
  intros Hpow. repeat split; apply mul_255_not_neg, Hpow; assumption.
Qed.

Lemma column_error_not_neg (t c : vec3) : (column_error t c <? 0) = false.
Proof.
  destruct t as [[t0 t1] t2], c as [[c0 c1] c2]. apply FloatOrder.sqrt_not_neg.
Qed.

(** For as many true colors as sampled colors, the residual function
    returns one error per patch, none of them negative (each is zero,
    positive or NaN). *)
Theorem get_color_error_not_negative (args2 : params)
    (true_colors actual_colors : colors3) :
  length true_colors = length actual_colors ->
  let errs := _get_color_error np_power args2 true_colors actual_colors in
  length errs = length actual_colors
  /\ Forall (fun e => (e <? 0) = false) errs.
Proof.
  intros Hlen. destruct args2 as [[color_alpha color_constant] g].
  unfold _get_color_error, color_errors, _gamma_correction_model. split.
  - rewrite length_map, length_combine, length_map. lia.
  - apply Forall_forall. intros e He. apply in_map_iff in He.
    destruct He as ([t c] & <- & _). apply column_error_not_neg.
Qed.

(** Whatever the optimiser returns, the gamma exponents handed out are
    its exponents in absolute value, so none is negative; the mixing matrix
    and the offsets are the optimiser's own, and the optimiser is started
    at the identity model. *)
Theorem fitted_gamma_not_negative (true_colors actual_colors : colors3) :
  let '(color_alpha, color_constant, (g0, g1, g2)) :=
    get_color_correction_parameters np_power leastsq true_colors actual_colors in
  (g0 <? 0) = false /\ (g1 <? 0) = false /\ (g2 <? 0) = false
  /\ exists g,
       leastsq (fun args2 =>
                  _get_color_error np_power args2 true_colors actual_colors)
               (eye3, zeros3, ones3)
       = (color_alpha, color_constant, g)
       /\ (g0, g1, g2) = abs3 g.
Proof.
  unfold get_color_correction_parameters.
  destruct (leastsq _ (eye3, zeros3, ones3))
    as [[color_alpha color_constant] [[g0 g1] g2]]. simpl.
  repeat split; try apply FloatOrder.abs_not_neg.
  now exists (g0, g1, g2).
Qed.

(** If the card's buffer has as many pixels as its shape says, every
    pixel of a sampling window is a pixel of the card: the slices select
    rows and columns of the card only. *)
Theorem patch_window_in_card (color_card : image) (grid_cols grid_rows : nat)
    (row col : nat) :
  length (buf color_card) = (shape0 color_card * shape1 color_card)%nat ->
  Forall (fun p => In p (buf color_card))
         (patch_window color_card grid_cols grid_rows row col).
Proof.
  intros Hlen. unfold patch_window, window.
  apply Forall_forall. intros p Hp.
  apply in_flat_map in Hp. destruct Hp as (i & Hi & Hp).
  apply in_map_iff in Hp. destruct Hp as (k & <- & Hk).
  apply slice_range_bound in Hi, Hk.
  apply nth_In. rewrite Hlen. nia.
Qed.

End Properties.

(** The identity model on the reference table. *)
Lemma get_color_error_not_negative_witness :
  let errs := _get_color_error Applier.power_one (eye3, zeros3, ones3)
                ColorCheckerRGB_CameraTrax ColorCheckerRGB_CameraTrax in
  length errs = 24%nat /\ Forall (fun e => (e <? 0) = false) errs.
Proof.
  exact (get_color_error_not_negative Applier.power_one (eye3, zeros3, ones3)
           ColorCheckerRGB_CameraTrax ColorCheckerRGB_CameraTrax eq_refl).
Defined.

(** The first window of the 6x4 grid on a 20x30 card. *)
Lemma patch_window_in_card_witness :
  patch_window Pipeline.Toy.checkerboard 6 4 0 0 <> []
  /\ Forall (fun p => In p (buf Pipeline.Toy.checkerboard))
            (patch_window Pipeline.Toy.checkerboard 6 4 0 0).
Proof.
  split; [vm_compute; discriminate|].
  exact (patch_window_in_card Pipeline.Toy.checkerboard 6 4 0 0 eq_refl).
Defined.

End Fit.

(* ================================================================== *)
(** * Whole runs of the pipeline (Color_correction.py) *)
(* ================================================================== *)

Module Runs.

Import colorbalance Color_correction.
Open Scope float_scope.
Open Scope py_scope.

(** An ideal card as the camera would deliver it (BGR order): 4 rows of 6
    patches of 10x10 pixels, each patch in its reference color. *)
Definition ideal_card : image :=
  cvtColor_swap
    (mk_image 40 60
       (map (fun i =>
               uint8_pixel
                 (nth ((i / 60 / 10) * 6 + (i mod 60) / 10)
                      ColorCheckerRGB_CameraTrax (0, 0, 0)))
            (seq 0 2400))).

Lemma cvtColor_swap_involutive (img : image) :
  cvtColor_swap (cvtColor_swap img) = img.
Proof.
  destruct img as [h w l]. unfold cvtColor_swap. cbn [shape0 shape1 buf].
  f_equal. rewrite map_map. rewrite <- (map_id l) at 2.
  apply map_ext. now intros [[a b] c].
Qed.

Section Properties.

Variable np_power : float -> float -> float.
Variable leastsq : (params -> list float) -> params -> params.
Variable os_path_exists : string -> bool.
Variable os_makedirs : string -> result unit.
Variable cv2_imwrite : string -> image -> result unit.

Local Abbreviation fit_loop := (fit_loop np_power leastsq).
Local Abbreviation correct_samples :=
  (correct_samples np_power leastsq os_path_exists os_makedirs cv2_imwrite).
Local Abbreviation Color_correct_and_write :=
  (Color_correct_and_write np_power leastsq os_path_exists os_makedirs
     cv2_imwrite).

(** With the 6x4 grid of the pipeline the sampler always returns 24 colors
    and 24 dispersions, whatever the card; the three orientation votes are
    then defined (no column is missing), and the samples handed on after
    the orientation step are 24 again. *)
Theorem sampled_card_has_24_patches (card : image) :
  exists actual_colors actual_colors_std,
    get_colorcard_colors (cvtColor_swap card) (6, 4)%nat
      = Ok (actual_colors, actual_colors_std)
    /\ length actual_colors = 24%nat
    /\ length actual_colors_std = 24%nat
    /\ exists v ac std,
         votes actual_colors = Ok v
         /\ resolve_orientation actual_colors actual_colors_std
            = Ok (ac, std, (2 <=? count_votes v)%nat)
         /\ length ac = 24%nat
         /\ length std = 24%nat.
Proof.
  eexists _, _. split; [now apply Sampler.get_colorcard_colors_grid|].
  set (g := Sampler.grid
              (sample_patch (cvtColor_swap card) 6 4) 4 6).
  assert (Hg : length g = 24%nat) by apply Sampler.length_grid_from.
  assert (Hc : length (map fst g) = 24%nat) by now rewrite length_map.
  assert (Hs : length (map snd g) = 24%nat) by now rewrite length_map.
  split; [exact Hc|]. split; [exact Hs|].
  pose proof (Orientation.votes_24 _ Hc) as Hv.
  pose proof (Orientation.resolve_orientation_votes _ (map snd g) _ Hv) as Hres.
  match type of Hv with _ = Ok ?w => set (v := w) in * end.
  destruct (2 <=? count_votes v)%nat eqn:Hcnt.
  - exists v, (rev (map fst g)), (rev (map snd g)).
    rewrite Hcnt, !length_rev. now repeat split.
  - exists v, (map fst g), (map snd g).
    rewrite Hcnt. now repeat split.
Qed.

Lemma fit_loop_no_retry (np_random_rand : nat -> colors3) (Acc : float)
    (actual_colors actual_colors2 : colors3) (fuel it k : nat) :
  (0.4 <? Acc) = false ->
  fit_loop np_random_rand (S fuel) Acc actual_colors it actual_colors2 k
  = let p := get_color_correction_parameters np_power leastsq
               ColorCheckerRGB_CameraTrax actual_colors2 in
    Ok (mk_fit (S it) p
          (color_errors ColorCheckerRGB_CameraTrax
             (_gamma_correction_model np_power actual_colors2
                (fst (fst p)) (snd (fst p)) (snd p)))
          k).
Proof.
  intros HAcc. simpl.
  destruct (get_color_correction_parameters np_power leastsq
              ColorCheckerRGB_CameraTrax actual_colors2)
    as [[color_alpha color_constant] color_gamma].
  unfold retry. rewrite HAcc. reflexivity.
Qed.

(** With a detection confidence not above 0.4 the fit is never repeated:
    one fit, no random draw, and the same outcome whatever the random
    generator would have drawn. *)
Theorem low_confidence_single_fit (rand1 rand2 : nat -> colors3)
    (fuel : nat) (card img : image) (study_file_name : string) (Acc : float) :
  (0.4 <? Acc) = false ->
  Color_correct_and_write rand1 fuel card img study_file_name Acc
  = Color_correct_and_write rand2 fuel card img study_file_name Acc
  /\ forall r,
       Color_correct_and_write rand1 fuel card img study_file_name Acc = Ok r ->
       card_damaged r = false ->
       fit_calls r = 1%nat /\ rand_calls r = 0%nat.
Proof.
  intros HAcc.
  assert (Hfit : forall ac,
             fit_loop rand1 fuel Acc ac 0 ac 0 = fit_loop rand2 fuel Acc ac 0 ac 0
             /\ forall st, fit_loop rand1 fuel Acc ac 0 ac 0 = Ok st ->
                  iter st = 1%nat /\ draws st = 0%nat).
  { intros ac. destruct fuel as [|fuel]; [split; [reflexivity|discriminate]|].
    rewrite !fit_loop_no_retry by exact HAcc. split; [reflexivity|].
    cbv zeta. intros st [= <-]. split; reflexivity. }
  split.
  - unfold Color_correction.Color_correct_and_write,
           Color_correction.correct_samples.
    destruct (cvtColor card) as [CardRGB|e|]; cbn [bind]; try reflexivity.
    destruct (cvtColor img) as [ImageRGB|e|]; cbn [bind]; try reflexivity.
    destruct (get_colorcard_colors CardRGB (6, 4)%nat) as [[ac std]|e|];
      cbn [bind]; try reflexivity.
    destruct (existsb (fun s => 90 <? s) std); [reflexivity|].
    destruct (resolve_orientation ac std) as [[[ac' std'] rotated]|e|];
      cbn [bind]; try reflexivity.
    destruct (negb (length ac' =? 24)%nat); [reflexivity|].
    now rewrite (proj1 (Hfit ac')).
  - intros r Hr Hd.
    destruct (Pipeline.Color_correct_and_write_inv _ _ _ _ _ _ _ _ _ _ _ _ Hr)
      as (_ & _ & ac & std & _ & Hs).
    destruct (Pipeline.correct_samples_inv _ _ _ _ _ _ _ _ _ _ _ _ _ Hs)
      as [[_ ->]|[_ (ac' & std' & rotated & st & _ & _ & Hst & ->)]];
      [discriminate Hd|].
    exact (proj2 (Hfit ac') st Hst).
Qed.

(** If raising to the power 1 returns the base and the fit of a run ends
    with the identity model (as it does when the optimiser returns its
    starting point), then whenever a file is written it holds the input
    photo itself, pixel for pixel: the change to RGB order and back
    cancels out. *)
Theorem unfitted_model_writes_photo (np_random_rand : nat -> colors3)
    (fuel : nat) (card img : image) (study_file_name : string) (Acc : float)
    (r : run) :
  (forall x, np_power x 1 = x) ->
  Color_correct_and_write np_random_rand fuel card img study_file_name Acc
    = Ok r ->
  (exists actual_colors actual_colors_std ac std rotated st,
      get_colorcard_colors (cvtColor_swap card) (6, 4)%nat
        = Ok (actual_colors, actual_colors_std)
      /\ resolve_orientation actual_colors actual_colors_std
         = Ok (ac, std, rotated)
      /\ fit_loop np_random_rand fuel Acc ac 0 ac 0 = Ok st
      /\ fit_params st = (eye3, zeros3, ones3)) ->
  written r = None \/ written r = Some (study_file_name, img).
Proof.
  intros Hpow Hr (ac0 & std0 & ac & std & rotated & st & Hg & Hres & Hst & Hp).
  destruct (Pipeline.Color_correct_and_write_inv _ _ _ _ _ _ _ _ _ _ _ _ Hr)
    as (_ & _ & ac0' & std0' & Hg' & Hs).
  rewrite Hg in Hg'. injection Hg' as <- <-.
  destruct (Pipeline.correct_samples_inv _ _ _ _ _ _ _ _ _ _ _ _ _ Hs)
    as [[_ ->]|[_ (ac' & std' & rotated' & st' & Hres' & _ & Hst' & ->)]];
    [now left|].
  rewrite Hres in Hres'. injection Hres' as <- <- <-.
  rewrite Hst in Hst'. injection Hst' as <-.
  cbn [written]. unfold Pipeline.emitted. rewrite Hp.
  destruct (error_percent (errors st) <? 50); [right|now left].
  do 2 f_equal.
  rewrite <- (cvtColor_swap_involutive img) at 2. f_equal.
  destruct (cvtColor_swap img) as [h w l].
  unfold correct_color, _gamma_correction_model. cbn [shape0 shape1 buf].
  f_equal. rewrite !map_map. rewrite <- (map_id l) at 2.
  apply map_ext. intros p. now apply Applier.identity_pixel.
Qed.

End Properties.

(** The ideal card is sampled as the reference table, without any
    dispersion. *)
Example ideal_card_sampled :
  get_colorcard_colors (cvtColor_swap ideal_card) (6, 4)%nat
  = Ok (ColorCheckerRGB_CameraTrax, repeat 0 24).
Proof. vm_compute. reflexivity. Qed.

(** The ideal card at confidence 0.35, with two different generators. *)
Lemma low_confidence_single_fit_witness :
  (0.4 <? 0.35) = false
  /\ Color_correct_and_write Pipeline.Toy.np_power Pipeline.Toy.leastsq
       Pipeline.Toy.os_path_exists Pipeline.Toy.os_makedirs
       Pipeline.Toy.cv2_imwrite Pipeline.Toy.np_random_rand 6 ideal_card
       Pipeline.Toy.photo "out/img.png"%string 0.35
     = Color_correct_and_write Pipeline.Toy.np_power Pipeline.Toy.leastsq
         Pipeline.Toy.os_path_exists Pipeline.Toy.os_makedirs
         Pipeline.Toy.cv2_imwrite (fun _ => []) 6 ideal_card
         Pipeline.Toy.photo "out/img.png"%string 0.35
  /\ Color_correct_and_write Pipeline.Toy.np_power Pipeline.Toy.leastsq
       Pipeline.Toy.os_path_exists Pipeline.Toy.os_makedirs
       Pipeline.Toy.cv2_imwrite Pipeline.Toy.np_random_rand 6 ideal_card
       Pipeline.Toy.photo "out/img.png"%string 0.35
     = Ok (mk_run false false 0
             (Some ("out/img.png"%string, Pipeline.Toy.photo)) 1 0).
Proof.
  split; [reflexivity|]. split; [|vm_compute; reflexivity].
  apply (low_confidence_single_fit Pipeline.Toy.np_power Pipeline.Toy.leastsq
           Pipeline.Toy.os_path_exists Pipeline.Toy.os_makedirs
           Pipeline.Toy.cv2_imwrite Pipeline.Toy.np_random_rand (fun _ => [])
           6 ideal_card Pipeline.Toy.photo "out/img.png"%string 0.35).
  reflexivity.
Defined.

(** The ideal card: the residuals vanish at the starting point, the fit
    ends with the identity model, and the photo is written as it came. *)
Lemma unfitted_model_writes_photo_witness :
  exists r,
    Pipeline.Toy.Color_correct_and_write 6 ideal_card Pipeline.Toy.photo
      "out/img.png"%string 0.9 = Ok r
    /\ correction_error r = 0
    /\ written r = Some ("out/img.png"%string, Pipeline.Toy.photo).
Proof.
  exists (mk_run false false 0
            (Some ("out/img.png"%string, Pipeline.Toy.photo)) 1 0).
  assert (H : Pipeline.Toy.Color_correct_and_write 6 ideal_card
                Pipeline.Toy.photo "out/img.png"%string 0.9
              = Ok (mk_run false false 0
                      (Some ("out/img.png"%string, Pipeline.Toy.photo)) 1 0))
    by (vm_compute; reflexivity).
  split; [exact H|]. split; [reflexivity|].
  destruct (unfitted_model_writes_photo Pipeline.Toy.np_power
              Pipeline.Toy.leastsq Pipeline.Toy.os_path_exists
              Pipeline.Toy.os_makedirs Pipeline.Toy.cv2_imwrite
              Pipeline.Toy.np_random_rand 6 ideal_card
              Pipeline.Toy.photo "out/img.png"%string 0.9 _
              (fun x => eq_refl) H) as [Hw|Hw];
    [|discriminate Hw|exact Hw].
  eexists _, _, _, _, _, _.
  split; [vm_compute; reflexivity|].
  split; [vm_compute; reflexivity|].
  split; vm_compute; reflexivity.
Defined.

End Runs.

(* ================================================================== *)
(** * The driver's helpers (run_color_correction.py) *)
(* ================================================================== *)

Module Driver.

Import colorbalance run_color_correction.
Open Scope py_scope.

Lemma length_flat_map_const {A B : Type} (f : A -> list B) (n : nat)
    (l : list A) :
  (forall a, length (f a) = n) -> length (flat_map f l) = (length l * n)%nat.
Proof.
  intros Hf. induction l as [|a l IH]; simpl; [reflexivity|].
  now rewrite length_app, Hf, IH.
Qed.

Lemma length_window (img : image) (r0 r1 c0 c1 : Z) :
  length (window img r0 r1 c0 c1)
  = (length (Py.slice_range r0 r1 (shape0 img))
     * length (Py.slice_range c0 c1 (shape1 img)))%nat.
Proof.
  unfold window. apply length_flat_map_const. intros i. apply length_map.
Qed.

Lemma window_in_image (img : image) (r0 r1 c0 c1 : Z) :
  length (buf img) = (shape0 img * shape1 img)%nat ->
  Forall (fun p => In p (buf img)) (window img r0 r1 c0 c1).
Proof.
  intros Hlen. unfold window.
  apply Forall_forall. intros p Hp.
  apply in_flat_map in Hp. destruct Hp as (i & Hi & Hp).
  apply in_map_iff in Hp. destruct Hp as (k & <- & Hk).
  apply Fit.slice_range_bound in Hi, Hk.
  apply nth_In. rewrite Hlen. nia.
Qed.

(** A slice that starts at or after 0 and ends before the last index
    leaves out the last element at least. *)
Lemma length_slice_range_inner (a b : Z) (n : nat) :
  (b <= Z.of_nat n - 1)%Z ->
  (length (Py.slice_range a b n) <= n - 1)%nat.
Proof.
  intros Hb. unfold Py.slice_range. rewrite length_seq.
  unfold Py.slice_index at 1.
  destruct (b <? 0)%Z eqn:E; [apply Z.ltb_lt in E|apply Z.ltb_ge in E]; lia.
Qed.

(** [crop_image] returns either the photo itself or a crop that is at
    least as high and as wide as the card, leaves out at least the last
    row and the last column of the photo, holds as many pixels as its
    shape says and, on a well-formed photo, only pixels of the photo. *)
Theorem crop_image_spec (image_orig : image) (height_card width_card : Z)
    (x_cord y_cord : Z) :
  let out := crop_image image_orig height_card width_card x_cord y_cord in
  out = image_orig
  \/ ((height_card <= Z.of_nat (shape0 out))%Z
      /\ (width_card <= Z.of_nat (shape1 out))%Z
      /\ (shape0 out <= shape0 image_orig - 1)%nat
      /\ (shape1 out <= shape1 image_orig - 1)%nat
      /\ length (buf out) = (shape0 out * shape1 out)%nat
      /\ (length (buf image_orig) = (shape0 image_orig * shape1 image_orig)%nat ->
          Forall (fun p => In p (buf image_orig)) (buf out))).
Proof.
  unfold crop_image. cbv zeta.
  match goal with
  | |- context [if ?c then _ else _] => destruct c eqn:E
  end; [now left|right].
  apply orb_false_iff in E. destruct E as [E0 E1].
  apply Z.ltb_ge in E0, E1.
  unfold slice_image in *. cbn [shape0 shape1 buf] in *.
  split; [exact E0|]. split; [exact E1|].
  split; [apply length_slice_range_inner; lia|].
  split; [apply length_slice_range_inner; lia|].
  split; [apply length_window|]. apply window_in_image.
Qed.

Lemma rot90_in_image (m : image) :
  length (buf m) = (shape0 m * shape1 m)%nat ->
  Forall (fun p => In p (buf m)) (buf (rot90 m)).
Proof.
  intros Hlen. unfold rot90. cbn [buf].
  apply Forall_forall. intros p Hp.
  apply in_flat_map in Hp. destruct Hp as (i & Hi & Hp).
  apply in_map_iff in Hp. destruct Hp as (j & <- & Hj).
  apply in_seq in Hi, Hj. apply nth_In. rewrite Hlen. nia.
Qed.

Lemma length_rot90 (m : image) :
  length (buf (rot90 m)) = (shape1 m * shape0 m)%nat.
Proof.
  unfold rot90. cbn [buf].
  rewrite (length_flat_map_const _ (shape0 m)).
  - now rewrite length_seq.
  - intros i. now rewrite length_map, length_seq.
Qed.

Lemma handle_cards_cases (image_resized : image) (vertical : bool) :
  let out := handle_verical_horizontal_cards image_resized vertical in
  (out = rot90 image_resized
   /\ (if vertical
       then (shape0 image_resized < shape1 image_resized)%nat
       else (shape1 image_resized < shape0 image_resized)%nat))
  \/ (out = image_resized
      /\ (if vertical
          then (shape1 image_resized <= shape0 image_resized)%nat
          else (shape0 image_resized <= shape1 image_resized)%nat)).
Proof.
  unfold handle_verical_horizontal_cards. cbv zeta.
  destruct (Nat.ltb_spec (shape1 image_resized) (shape0 image_resized)),
           (Nat.ltb_spec (shape0 image_resized) (shape1 image_resized)),
           vertical; cbn [andb negb]; try lia; auto.
Qed.

(** [handle_verical_horizontal_cards] returns the image or its quarter
    turn, so that the result is at least as wide as high when [vertical]
    is false and at least as high as wide when it is true; a square image
    is never turned, and on a well-formed image the result is well formed
    and holds only pixels of the image. *)
Theorem handle_cards_orientation (image_resized : image) (vertical : bool) :
  let out := handle_verical_horizontal_cards image_resized vertical in
  (if vertical then (shape1 out <= shape0 out)%nat
   else (shape0 out <= shape1 out)%nat)
  /\ (out = image_resized \/ out = rot90 image_resized)
  /\ (shape0 image_resized = shape1 image_resized -> out = image_resized)
  /\ (length (buf image_resized)
      = (shape0 image_resized * shape1 image_resized)%nat ->
      length (buf out) = (shape0 out * shape1 out)%nat
      /\ Forall (fun p => In p (buf image_resized)) (buf out)).
Proof.
  intros out.
  destruct (handle_cards_cases image_resized vertical) as [[Hout H]|[Hout H]];
    fold out in Hout; rewrite Hout.
  - split; [destruct vertical; cbn [rot90 shape0 shape1]; lia|].
    split; [now right|].
    split; [intros Heq; destruct vertical; lia|].
    intros Hlen. split; [apply length_rot90|now apply rot90_in_image].
  - split; [exact H|]. split; [now left|]. split; [reflexivity|].
    intros Hlen. split; [exact Hlen|].
    apply Forall_forall. now intros p Hp.
Qed.

Lemma split_not_nil (sep : ascii) (s : str) : split sep s <> [].
Proof.
  destruct s as [|c s]; simpl; [discriminate|].
  destruct (Ascii.eqb c sep); [discriminate|].
  destruct (split sep s); discriminate.
Qed.

(** [split] returns one piece more than there are separators. *)
Lemma length_split (sep : ascii) (s : str) :
  length (split sep s) = S (count_occ ascii_dec s sep).
Proof.
  induction s as [|c s IH]; simpl; [reflexivity|].
  destruct (Ascii.eqb_spec c sep) as [->|Hne].
  - destruct (ascii_dec sep sep); [|contradiction]. simpl. now rewrite IH.
  - destruct (ascii_dec c sep); [contradiction|].
    destruct (split sep s) eqn:E; [now apply split_not_nil in E|].
    simpl in *. exact IH.
Qed.

Lemma split_no_sep (sep : ascii) (s : str) :
  ~ In sep s -> split sep s = [s].
Proof.
  induction s as [|c s IH]; simpl; intros Hin; [reflexivity|].
  destruct (Ascii.eqb_spec c sep) as [->|Hne]; [exfalso; auto|].
  rewrite IH by auto. reflexivity.
Qed.

Lemma split_app_sep (sep : ascii) (a b : str) :
  ~ In sep a -> split sep (a ++ sep :: b) = a :: split sep b.
Proof.
  induction a as [|c a IH]; simpl; intros Hin.
  - now rewrite Ascii.eqb_refl.
  - destruct (Ascii.eqb_spec c sep) as [->|Hne]; [exfalso; auto|].
    rewrite IH by auto. reflexivity.
Qed.

Lemma drop_last_if_snoc (c : ascii) (s : str) :
  drop_last_if c (s ++ [c]) = s.
Proof.
  unfold drop_last_if. rewrite rev_app_distr. simpl.
  now rewrite Ascii.eqb_refl, rev_involutive.
Qed.

Lemma count_occ_drop_last_if (c sep : ascii) (s : str) :
  c <> sep ->
  count_occ ascii_dec (drop_last_if c s) sep = count_occ ascii_dec s sep.
Proof.
  intros Hne. unfold drop_last_if.
  destruct (rev s) as [|x rest] eqn:E; [reflexivity|].
  destruct (Ascii.eqb_spec x c) as [->|]; [|reflexivity].
  assert (Hs : s = rev rest ++ [c]).
  { rewrite <- (rev_involutive s), E. reflexivity. }
  rewrite Hs, count_occ_app. simpl.
  destruct (ascii_dec c sep); [contradiction|]. lia.
Qed.

Lemma split_pieces_no_sep (sep : ascii) (s : str) :
  Forall (fun piece => ~ In sep piece) (split sep s).
Proof.
  induction s as [|c s IH]; simpl.
  - constructor; [now intros []|constructor].
  - destruct (Ascii.eqb_spec c sep) as [->|Hne].
    + constructor; [now intros []|exact IH].
    + destruct (split sep s) as [|piece pieces];
        [constructor; [|constructor]; intros [H|[]]; now apply Hne|].
      inversion IH as [|? ? Hp Hps]; subst.
      constructor; [|exact Hps]. intros [H|H]; [now apply Hne|now apply Hp].
Qed.

Lemma lstrip_In (c : ascii) (s : str) : In c (lstrip s) -> In c s.
Proof.
  induction s as [|x s IH]; simpl; [tauto|].
  destruct (isspace x); [right; now apply IH|tauto].
Qed.

(** Stripping only removes characters. *)
Lemma strip_In (c : ascii) (s : str) : In c (strip s) -> In c s.
Proof.
  unfold strip. intros H.
  apply <- in_rev in H. apply lstrip_In in H.
  apply <- in_rev in H. now apply lstrip_In.
Qed.

(** [check_name_modification] raises [IndexError] on the empty text; on
    any other text it returns two names exactly when the text holds one
    comma, neither name holding a comma, and raises [ValueError]
    otherwise. *)
Theorem check_name_modification_one_comma (names : str) :
  check_name_modification [] = Raise IndexError
  /\ (names <> [] ->
      if (count_occ ascii_dec names ","%char =? 1)%nat
      then exists old new,
             check_name_modification names = Ok (old, new)
             /\ ~ In ","%char old /\ ~ In ","%char new
      else check_name_modification names = Raise ValueError).
Proof.
  split; [reflexivity|]. intros Hne.
  destruct names as [|first rest]; [contradiction|].
  unfold check_name_modification.
  set (names1 := if Ascii.eqb first "["%char then rest else first :: rest).
  set (names2 := drop_last_if "]"%char names1).
  assert (Hcount : count_occ ascii_dec names2 ","%char
                   = count_occ ascii_dec (first :: rest) ","%char).
  { subst names2. rewrite count_occ_drop_last_if by discriminate.
    subst names1. destruct (Ascii.eqb_spec first "["%char) as [->|];
      reflexivity. }
  rewrite <- Hcount.
  pose proof (length_split ","%char names2) as Hlen.
  pose proof (split_pieces_no_sep ","%char names2) as Hpieces.
  destruct (split ","%char names2) as [|a [|b [|c l]]];
    simpl in Hlen; try discriminate Hlen;
    injection Hlen as Hlen; rewrite <- Hlen; simpl; try reflexivity.
  inversion Hpieces as [|? ? Ha Hb']; subst.
  inversion Hb' as [|? ? Hb _]; subst.
  exists (strip a), (strip b). split; [reflexivity|].
  split; intros H; [apply Ha|apply Hb]; now apply strip_In.
Qed.

Lemma lstrip_fixed (s : str) :
  match s with c :: _ => isspace c = false | [] => True end -> lstrip s = s.
Proof. destruct s as [|c s]; simpl; [reflexivity|]. now intros ->. Qed.

(** Two names without comma and without white space at their ends,
    written between brackets with a comma between them, are read back as
    they are. *)
Theorem check_name_modification_roundtrip (old new : str) :
  ~ In ","%char old -> ~ In ","%char new ->
  strip old = old -> strip new = new ->
  check_name_modification ("["%char :: old ++ ","%char :: new ++ ["]"%char])
  = Ok (old, new).
Proof.
  intros Ho Hn Hso Hsn. unfold check_name_modification.
  rewrite Ascii.eqb_refl.
  replace (old ++ ","%char :: new ++ ["]"%char])
    with ((old ++ ","%char :: new) ++ ["]"%char])
    by (rewrite <- app_assoc; reflexivity).
  rewrite drop_last_if_snoc, split_app_sep, split_no_sep by assumption.
  simpl. now rewrite Hso, Hsn.
Qed.


Section Parsing.

Variable eval : string -> result (list Py.num).
Variable int : string -> result Z.
Variable NUM_CORES : Z.

Local Abbreviation parse_options := (parse_options eval int NUM_CORES).
Local Abbreviation string_array_check := (string_array_check eval).

(** The four numbers that must be positive. *)
Definition positive_counts (O : Options) : Prop :=
  gt_0 (scale_lower O) = true /\ gt_0 (scale_upper O) = true
  /\ gt_0 (scale_num O) = true /\ gt_0 (degree_num O) = true.

Lemma string_array_check_length (text : string) (n : nat) (array : list Py.num) :
  string_array_check text n = Ok array -> length array = n.
Proof.
  unfold run_color_correction.string_array_check.
  destruct (eval text) as [a|e|]; cbn [bind]; try discriminate.
  destruct (Nat.eqb_spec (length a) n); [|discriminate].
  now intros [= <-].
Qed.

Lemma parse_scale_positive (o : opts) (O O' : Options) :
  positive_counts O -> parse_scale eval o O = Ok O' ->
  positive_counts O' /\ vertical O' = vertical O.
Proof.
  unfold parse_scale, positive_counts. intros HO.
  destruct (opt_s o) as [text|]; [|now intros [= <-]].
  destruct (string_array_check text 3) as [[|s0 [|s1 [|s2 [|? ?]]]]|e|];
    cbn [bind]; try discriminate.
  destruct (gt_0 s0) eqn:H0, (gt_0 s1) eqn:H1, (gt_0 s2) eqn:H2;
    cbn [andb]; try discriminate.
  intros [= <-]. cbn. tauto.
Qed.

Lemma parse_degree_positive (o : opts) (O O' : Options) :
  positive_counts O -> parse_degree eval o O = Ok O' ->
  positive_counts O' /\ vertical O' = vertical O.
Proof.
  unfold parse_degree, positive_counts. intros HO.
  destruct (opt_d o) as [text|]; [|now intros [= <-]].
  destruct (string_array_check text 3) as [[|d0 [|d1 [|d2 [|? ?]]]]|e|];
    cbn [bind]; try discriminate.
  destruct (gt_0 d2) eqn:H2; try discriminate.
  intros [= <-]. cbn. tauto.
Qed.

Lemma parse_fast_positive (o : opts) (O O' : Options) :
  positive_counts O -> parse_fast eval o O = Ok O' ->
  positive_counts O' /\ vertical O' = vertical O.
Proof.
  unfold parse_fast, positive_counts. intros HO.
  destruct (opt_f o) as [text|]; [|now intros [= <-]].
  destruct (string_array_check text 2) as [[|x [|y [|? ?]]]|e|];
    cbn [bind]; try discriminate.
  intros [= <-]. cbn. tauto.
Qed.

Lemma parse_names_positive (o : opts) (O O' : Options) :
  positive_counts O -> parse_names o O = Ok O' ->
  positive_counts O' /\ vertical O' = vertical O.
Proof.
  unfold parse_names, positive_counts. intros HO.
  destruct (opt_n o) as [text|]; [|now intros [= <-]].
  destruct (check_name_modification _) as [[old new]|e|];
    cbn [bind]; try discriminate.
  intros [= <-]. cbn. tauto.
Qed.

Lemma parse_cores_positive (o : opts) (O O' : Options) :
  positive_counts O -> parse_cores int o O = Ok O' ->
  positive_counts O' /\ vertical O' = vertical O.
Proof.
  unfold parse_cores, positive_counts. intros HO.
  destruct (opt_t o) as [text|]; [|now intros [= <-]].
  destruct (int text) as [n|e|]; cbn [bind]; try discriminate.
  intros [= <-]. cbn. tauto.
Qed.

(** Whatever [eval] and [int] make of the option texts, the options
    [parse_options] returns have positive scale bounds, a positive number
    of scales and a positive number of angles, and [vertical] is the flag
    [-v].  A [-s] triple with an entry that is not positive raises
    [ValueError], and so does, without [-s], a [-d] triple whose count is
    not positive. *)
Theorem parse_options_positive (o : opts) :
  (forall O, parse_options o = Ok O ->
     positive_counts O /\ vertical O = opt_v o)
  /\ (forall text s0 s1 s2,
        opt_s o = Some text -> eval text = Ok [s0; s1; s2] ->
        gt_0 s0 && gt_0 s1 && gt_0 s2 = false ->
        parse_options o = Raise ValueError)
  /\ (forall text d0 d1 d2,
        opt_s o = None ->
        opt_d o = Some text -> eval text = Ok [d0; d1; d2] ->
        gt_0 d2 = false ->
        parse_options o = Raise ValueError).
Proof.
  unfold run_color_correction.parse_options. cbv zeta.
  set (O0 := if opt_v o then _ else _).
  assert (H0 : positive_counts O0 /\ vertical O0 = opt_v o).
  { subst O0. destruct (opt_v o); cbn; unfold positive_counts; cbn; tauto. }
  destruct H0 as [H0 Hv0].
  split; [|split].
  - intros O.
    destruct (parse_scale eval o O0) as [O1|e|] eqn:E1; cbn [bind];
      try discriminate.
    destruct (parse_scale_positive _ _ _ H0 E1) as [H1 Hv1].
    destruct (parse_degree eval o O1) as [O2|e|] eqn:E2; cbn [bind];
      try discriminate.
    destruct (parse_degree_positive _ _ _ H1 E2) as [H2 Hv2].
    destruct (parse_fast eval o O2) as [O3|e|] eqn:E3; cbn [bind];
      try discriminate.
    destruct (parse_fast_positive _ _ _ H2 E3) as [H3 Hv3].
    destruct (parse_names o O3) as [O4|e|] eqn:E4; cbn [bind];
      try discriminate.
    destruct (parse_names_positive _ _ _ H3 E4) as [H4 Hv4].
    destruct (parse_cores int o O4) as [O5|e|] eqn:E5; cbn [bind];
      try discriminate.
    destruct (parse_cores_positive _ _ _ H4 E5) as [H5 Hv5].
    intros [= <-]. unfold parse_log.
    destruct (opt_l o); [|split; [exact H5|congruence]].
    unfold positive_counts in *. cbn. split; [tauto|congruence].
  - intros text s0 s1 s2 Hs He Hbad.
    unfold parse_scale, run_color_correction.string_array_check.
    rewrite Hs, He. cbn. rewrite Hbad. reflexivity.
  - intros text d0 d1 d2 Hs Hd He Hbad.
    unfold parse_scale. rewrite Hs. cbn [bind].
    unfold parse_degree, run_color_correction.string_array_check.
    rewrite Hd, He. cbn. rewrite Hbad. reflexivity.
Qed.

End Parsing.

(** The names of the usage text. *)
Lemma check_name_modification_roundtrip_witness :
  check_name_modification (list_ascii_of_string "[-orig,-cor]")
  = Ok (list_ascii_of_string "-orig", list_ascii_of_string "-cor").
Proof.
  apply (check_name_modification_roundtrip
           (list_ascii_of_string "-orig") (list_ascii_of_string "-cor")).
  - intros H. simpl in H. intuition discriminate.
  - intros H. simpl in H. intuition discriminate.
  - reflexivity.
  - reflexivity.
Defined.

(** White space around the names is dropped, brackets are optional, and a
    lone bracket or a third name is refused. *)
Example check_name_modification_examples :
  check_name_modification (list_ascii_of_string "[ -orig , -cor ]")
  = Ok (list_ascii_of_string "-orig", list_ascii_of_string "-cor")
  /\ check_name_modification (list_ascii_of_string "-orig,-cor")
     = Ok (list_ascii_of_string "-orig", list_ascii_of_string "-cor")
  /\ check_name_modification (list_ascii_of_string "[") = Raise ValueError
  /\ check_name_modification (list_ascii_of_string "[a,b,c]")
     = Raise ValueError.
Proof. repeat split. Qed.

(** A 20x30 photo and a 4x4 card: around the point (15, 10) a 10x10 crop
    is taken; around a point far outside the photo is returned whole. *)
Example crop_image_examples :
  let photo := Pipeline.Toy.checkerboard in
  shape0 (crop_image photo 4 4 15 10) = 10%nat
  /\ shape1 (crop_image photo 4 4 15 10) = 10%nat
  /\ crop_image photo 4 4 500 500 = photo.
Proof. repeat split; vm_compute; reflexivity. Qed.

End Driver.
